(** * Gradient descent for univariate linear regression

    A shallow embedding of the three functions of the notebook
    [Week_1_-_Linear_Regression/7.Gradient_Descent_Optimisiation.ipynb]
    ([compute_cost], [compute_gradient], [gradient_descent]) and of its
    training set ([x_train], [y_train]), followed by the properties the
    specification states about them.

    - Arrays ([np.array]) are lists, passed by value: the code reads them
      and never writes to them.
    - Python integers ([n], [i], [num_iters]) are [Z].
    - Scalars are kept abstract behind the class [Scalar]: the functions are
      written once and run at IEEE binary64 (the kernel's primitive floats,
      what numpy computes with) and at the real numbers (exact arithmetic).
    - Exceptions and [print] are effects: a computation maps the standard
      output seen so far to an outcome and the standard output afterwards. *)

From Stdlib Require Import ZArith List Lia Bool.
From Stdlib Require Import Reals Lra.
From Stdlib Require PrimFloat Uint63.
Import ListNotations.

Set Implicit Arguments.

(** ** Scalars *)

(** The arithmetic the notebook uses on [m], [b], the array elements and the
    learning rate.  [of_int] is the conversion Python applies to an integer
    operand that meets a float; [square] is [** 2]. *)
Class Scalar (F : Type) : Type := {
  of_int : Z -> F;
  plus : F -> F -> F;
  minus : F -> F -> F;
  times : F -> F -> F;
  divide : F -> F -> F;
  square : F -> F
}.

Declare Scope scalar_scope.
Delimit Scope scalar_scope with sc.
Infix "+" := plus : scalar_scope.
Infix "-" := minus : scalar_scope.
Infix "*" := times : scalar_scope.
Infix "/" := divide : scalar_scope.

(** Exact arithmetic. *)
#[export] Instance real_scalar : Scalar R := {
  of_int := IZR;
  plus := Rplus;
  minus := Rminus;
  times := Rmult;
  divide := Rdiv;
  square := fun r => Rmult r r
}.

(** IEEE 754 binary64, round to nearest even.  An integer is converted
    through its magnitude (exact below [2^53], as every integer of the
    notebook is).  [** 2] is the correctly rounded product of the operand by
    itself; numpy evaluates it through the C library's [pow], which can be
    one unit in the last place away at some operands.  Only the costs use
    it, never the parameter updates, and the statements below that are
    specific to binary64 constrain no cost other than exact ones. *)
Definition float_of_int (z : Z) : PrimFloat.float :=
  if (z <? 0)%Z
  then PrimFloat.opp (PrimFloat.of_uint63 (Uint63.of_Z (- z)))
  else PrimFloat.of_uint63 (Uint63.of_Z z).

#[export] Instance binary64 : Scalar PrimFloat.float := {
  of_int := float_of_int;
  plus := PrimFloat.add;
  minus := PrimFloat.sub;
  times := PrimFloat.mul;
  divide := PrimFloat.div;
  square := fun f => PrimFloat.mul f f
}.

(** ** Exceptions, standard output and the monad of computations *)

(** The two exceptions the code of the notebook can raise by itself. *)
Inductive exn : Type :=
| ZeroDivisionError
| IndexError.

Inductive outcome (A : Type) : Type :=
| Ok (a : A)
| Raise (e : exn).
Arguments Ok {A} a.
Arguments Raise {A} e.

(** What [gradient_descent] hands to [print]: the arguments of its f-string,
    before formatting. *)
Record line (F : Type) : Type := Line {
  p_iter : Z;
  p_cost : F;
  p_dj_dm : F;
  p_dj_db : F;
  p_m : F;
  p_b : F
}.

Definition stdout (F : Type) : Type := list (line F).

(** A computation: from the output printed so far to an outcome and the
    output printed afterwards.  What was printed before an exception stays
    printed. *)
Definition M (F A : Type) : Type := stdout F -> outcome A * stdout F.

Definition ret {F A} (a : A) : M F A := fun out => (Ok a, out).

Definition raise {F A} (e : exn) : M F A := fun out => (Raise e, out).

Definition bind {F A B} (c : M F A) (k : A -> M F B) : M F B :=
  fun out =>
    match c out with
    | (Ok a, out') => k a out'
    | (Raise e, out') => (Raise e, out')
    end.

Definition print {F} (l : line F) : M F unit :=
  fun out => (Ok tt, out ++ [l]).

Declare Scope monad_scope.
Delimit Scope monad_scope with monad.
Notation "x <- c ;; k" := (bind c (fun x => k))
  (at level 61, c at next level, right associativity) : monad_scope.
Notation "' p <- c ;; k" := (bind c (fun v => let p := v in k))
  (at level 61, p pattern, c at next level, right associativity) : monad_scope.
Notation "c ;;; k" := (bind c (fun _ => k))
  (at level 61, right associativity) : monad_scope.

(** [for i in idx: s = body(i, s)]. *)
Fixpoint for_each {F I S} (body : I -> S -> M F S) (idx : list I) (s : S) : M F S :=
  match idx with
  | [] => ret s
  | i :: idx' => bind (body i s) (for_each body idx')
  end.

(** Python's [range(n)]: empty when [n <= 0]. *)
Definition range (n : Z) : list Z := map Z.of_nat (seq 0 (Z.to_nat n)).

(** [a[i]]: a negative index counts from the end, an index outside the array
    raises [IndexError]. *)
Definition index {F A} (a : list A) (i : Z) : M F A :=
  let j := if (i <? 0)%Z then (i + Z.of_nat (length a))%Z else i in
  if (j <? 0)%Z then raise IndexError
  else match nth_error a (Z.to_nat j) with
       | Some v => ret v
       | None => raise IndexError
       end.

(** [a[-1]] on a Python list. *)
Definition last_entry {F A} (a : list A) : M F A :=
  index a (-1).

(** [x.shape[0]]. *)
Definition shape0 {F} (x : list F) : Z := Z.of_nat (length x).

(** A computation that returns [v] whatever has been printed, and prints
    nothing: it has no side effect. *)
Definition returns {F A} (c : M F A) (v : A) : Prop :=
  forall out, c out = (Ok v, out).

(** A computation that raises [e] and prints nothing. *)
Definition raises {F A} (c : M F A) (e : exn) : Prop :=
  forall out, c out = (Raise e, out).

Section Notebook.

Context {F : Type} {SF : Scalar F}.
Local Open Scope scalar_scope.
Local Open Scope monad_scope.

(** ** [compute_cost] *)

(** The body of the loop of [compute_cost]; the state is [cost_sum]. *)
Definition cost_body (x y : list F) (m b : F) (i : Z) (cost_sum : F) : M F F :=
  xi <- index x i ;;
  let f_mb := m * xi + b in
  yi <- index y i ;;
  let cost := square (f_mb - yi) in
  ret (cost_sum + cost).

(** [1 / (2 * n)] and [dj / n]: the divisor is a Python integer, and so is
    the dividend when the divisor is [0] ([1], or an accumulator still at its
    initial [0] because the loop over [range(0)] never ran): Python raises
    [ZeroDivisionError]. *)
Definition div_int (a : F) (n : Z) : M F F :=
  if (n =? 0)%Z then raise ZeroDivisionError else ret (a / of_int n).

Definition compute_cost (x y : list F) (m b : F) : M F F :=
  let n := shape0 x in
  let cost_sum := of_int 0 in
  cost_sum <- for_each (cost_body x y m b) (range n) cost_sum ;;
  inv <- div_int (of_int 1) (2 * n) ;;
  let total_cost := inv * cost_sum in
  ret total_cost.

(** ** [compute_gradient] *)

(** The body of the loop of [compute_gradient]; the state is
    [(dj_dm, dj_db)]. *)
Definition gradient_body (x y : list F) (m b : F) (i : Z) (acc : F * F)
  : M F (F * F) :=
  let '(dj_dm, dj_db) := acc in
  xi <- index x i ;;
  let f_mb := m * xi + b in
  yi <- index y i ;;
  xi' <- index x i ;;
  let dj_dm_i := (f_mb - yi) * xi' in
  yi' <- index y i ;;
  let dj_db_i := f_mb - yi' in
  let dj_db := dj_db + dj_db_i in
  let dj_dm := dj_dm + dj_dm_i in
  ret (dj_dm, dj_db).

Definition compute_gradient (x y : list F) (m b : F) : M F (F * F) :=
  let n := shape0 x in
  let dj_dm := of_int 0 in
  let dj_db := of_int 0 in
  ' (dj_dm, dj_db) <- for_each (gradient_body x y m b) (range n) (dj_dm, dj_db) ;;
  dj_dm <- div_int dj_dm n ;;
  dj_db <- div_int dj_db n ;;
  ret (dj_dm, dj_db).

(** ** [gradient_descent] *)

(** The callables [cost_function] and [gradient_function]. *)
Definition cost_callable : Type := list F -> list F -> F -> F -> M F F.
Definition gradient_callable : Type := list F -> list F -> F -> F -> M F (F * F).

(** The variables the loop updates: [m], [b], [J_history], [p_history]. *)
Definition gd_state : Type := F * F * list F * list (F * F).

(** [math.ceil(num_iters/10)], on integers: the float quotient of the source
    rounds up to the same integer for every count below [2^53].  Beyond, the
    quotient of the source loses the remainder (from [10 * 2^50 + 1] on) and
    overflows (from about [1.8e309] on); the statements about what is
    printed carry the bound. *)
Definition print_interval (num_iters : Z) : Z := ((num_iters + 9) / 10)%Z.

(** [i % k == 0]; the remainder by [0] raises. *)
Definition is_multiple (i k : Z) : M F bool :=
  if (k =? 0)%Z then raise ZeroDivisionError else ret (i mod k =? 0)%Z.

(** The body of the loop of [gradient_descent]. *)
Definition gd_body (x y : list F) (alpha : F) (num_iters : Z)
    (cost_function : cost_callable) (gradient_function : gradient_callable)
    (i : Z) (st : gd_state) : M F gd_state :=
  let '(m, b, J_history, p_history) := st in
  ' (dj_dm, dj_db) <- gradient_function x y m b ;;
  let b := b - alpha * dj_db in
  let m := m - alpha * dj_dm in
  ' (J_history, p_history) <-
    (if (i <? 100000)%Z
     then c <- cost_function x y m b ;;
          ret (J_history ++ [c], p_history ++ [(m, b)])
     else ret (J_history, p_history)) ;;
  due <- is_multiple i (print_interval num_iters) ;;
  (if due : bool
   then c <- last_entry J_history ;;
        print (Line i c dj_dm dj_db m b)
   else ret tt) ;;;
  ret (m, b, J_history, p_history).

Definition gradient_descent (x y : list F) (m_in b_in alpha : F) (num_iters : Z)
    (cost_function : cost_callable) (gradient_function : gradient_callable)
  : M F gd_state :=
  let J_history := [] in
  let p_history := [] in
  let b := b_in in
  let m := m_in in
  for_each (gd_body x y alpha num_iters cost_function gradient_function)
           (range num_iters) (m, b, J_history, p_history).

End Notebook.

(** ** The training set of the notebook *)

(** [np.array([1.0, 2.0])] and [np.array([300.0, 500.0])]: the four values
    are whole numbers, which [of_int] gives exactly. *)
Definition x_train {F} `{Scalar F} : list F := [of_int 1; of_int 2].
Definition y_train {F} `{Scalar F} : list F := [of_int 300; of_int 500].

(** The learning rate of the first run of the notebook, [1.0e-2]. *)
Definition tmp_alpha {F : Type} {SF : Scalar F} : F :=
  divide (of_int 1) (of_int 100).

(** The binary64 number [2^1023], finite and the largest power of two. *)
Section Binary64Literals.
Import PrimFloat.
End Binary64Literals.

(** ** The formulas of the specification *)

Section Formulas.

Context {F : Type} {SF : Scalar F}.
Local Open Scope scalar_scope.

(** [Σ_{i=0}^{n-1} f i], the terms added in the order of the index. *)
Fixpoint big_sum (f : nat -> F) (n : nat) : F :=
  match n with
  | O => of_int 0
  | S k => big_sum f k + f k
  end.

(** [x_i]: the [i]-th element of the array. *)
Definition elt (a : list F) (i : nat) : F := nth i a (of_int 0).

(** The residual [m*x_i + b - y_i] of the model at the [i]-th example. *)
Definition residual (x y : list F) (m b : F) (i : nat) : F :=
  m * elt x i + b - elt y i.

(** [(1/(2n)) * Σ (m*x_i + b - y_i)^2]. *)
Definition cost_formula (x y : list F) (m b : F) : F :=
  let n := length x in
  (of_int 1 / of_int (2 * Z.of_nat n))
  * big_sum (fun i => square (residual x y m b i)) n.

(** [Σ (m*x_i + b - y_i) * x_i] and [Σ (m*x_i + b - y_i)]. *)
Definition slope_sum (x y : list F) (m b : F) : F :=
  big_sum (fun i => residual x y m b i * elt x i) (length x).

Definition intercept_sum (x y : list F) (m b : F) : F :=
  big_sum (fun i => residual x y m b i) (length x).

(** What [compute_gradient] evaluates: each sum divided by [n]. *)
Definition gradient_value (x y : list F) (m b : F) : F * F :=
  let n := Z.of_nat (length x) in
  (slope_sum x y m b / of_int n, intercept_sum x y m b / of_int n).

End Formulas.

(** ** The loop of [gradient_descent], iteration by iteration *)

Section LoopStates.

Context {F : Type} {SF : Scalar F}.
Local Open Scope scalar_scope.

Variables (x y : list F) (alpha : F) (num_iters : Z).
Variables (cost_function : @cost_callable F)
          (gradient_function : @gradient_callable F).
Variables (m_in b_in : F).

(** The loop of [gradient_descent] stopped after its first [k] iterations
    ([k <= num_iters]; the print interval is still that of the whole run). *)
Definition gd_prefix (k : Z) : M F gd_state :=
  for_each (gd_body x y alpha num_iters cost_function gradient_function)
           (range k) (m_in, b_in, [], []).

(** [J] and [P] are parallel records: as long as each other, and each cost
    is an answer of [cost_function] at the pair stored beside it. *)
Definition parallel_records (J : list F) (P : list (F * F)) : Prop :=
  length J = length P
  /\ forall i m b, nth_error P i = Some (m, b) ->
       exists c out out',
         nth_error J i = Some c /\ cost_function x y m b out = (Ok c, out').

End LoopStates.

Section Updates.

Context {F : Type} {SF : Scalar F}.
Local Open Scope scalar_scope.

(** One simultaneous update of the parameter pair, for a gradient given as a
    function of [(m, b)]. *)
Definition gd_step (grad : F -> F -> F * F) (alpha : F) (p : F * F) : F * F :=
  let '(m, b) := p in
  let '(dj_dm, dj_db) := grad m b in
  (m - alpha * dj_dm, b - alpha * dj_db).

(** The parameter pair after [k] updates. *)
Definition params_after (grad : F -> F -> F * F) (alpha m_in b_in : F) (k : nat)
  : F * F :=
  Nat.iter k (gd_step grad alpha) (m_in, b_in).

(** The pairs after updates [1 .. k], and their costs. *)
Definition params_upto (grad : F -> F -> F * F) (alpha m_in b_in : F) (k : nat)
  : list (F * F) :=
  map (params_after grad alpha m_in b_in) (seq 1 k).

Definition costs_upto (cost : F -> F -> F) (grad : F -> F -> F * F)
    (alpha m_in b_in : F) (k : nat) : list F :=
  map (fun p => cost (fst p) (snd p)) (params_upto grad alpha m_in b_in k).

(** The number of iterations recorded among the first [k]: [min(k, 100000)]. *)
Definition recorded (k : Z) : nat := Z.to_nat (Z.min k 100000).

(** What iteration [i] hands to [print] when the callables are the functions
    [cost] and [grad]: the index, the last cost recorded (that of the pair
    after [min(i + 1, 100000)] updates), the gradient at the pair before the
    update and the pair after it. *)
Definition report_line (cost : F -> F -> F) (grad : F -> F -> F * F)
    (alpha m_in b_in : F) (i : nat) : line F :=
  let p := params_after grad alpha m_in b_in i in
  let g := grad (fst p) (snd p) in
  let p' := params_after grad alpha m_in b_in (S i) in
  let q := params_after grad alpha m_in b_in (recorded (Z.of_nat (S i))) in
  Line (Z.of_nat i) (cost (fst q) (snd q)) (fst g) (snd g) (fst p') (snd p').

(** The lines the first [k] iterations of a run of [num_iters] iterations
    print: one for each index that is a multiple of the print interval. *)
Definition reports (cost : F -> F -> F) (grad : F -> F -> F * F)
    (alpha m_in b_in : F) (num_iters : Z) (k : nat) : list (line F) :=
  flat_map (fun i =>
              if (Z.of_nat i mod print_interval num_iters =? 0)%Z
              then [report_line cost grad alpha m_in b_in i]
              else [])
           (seq 0 k).

End Updates.


(** Case analysis on the outcome of every call a run went through. *)
Ltac invert_run H :=
  repeat match type of H with
    | context [match ?c with _ => _ end] =>
        let E := fresh "E" in destruct c eqn:E; try discriminate H
    end.

(** ** Running computations *)

Section Running.

Context {F : Type}.

Lemma returns_ret {A} (a : A) : returns (@ret F A a) a.
Proof. intros out. reflexivity. Qed.

Lemma returns_bind {A B} (c : M F A) (k : A -> M F B) (a : A) (v : B) :
  returns c a -> returns (k a) v -> returns (bind c k) v.
Proof.
  intros Hc Hk out. unfold bind. rewrite Hc. apply Hk.
Qed.

Lemma raises_bind {A B} (c : M F A) (k : A -> M F B) (e : exn) :
  raises c e -> raises (bind c k) e.
Proof.
  intros Hc out. unfold bind. rewrite Hc. reflexivity.
Qed.

Lemma returns_then_raises {A B} (c : M F A) (k : A -> M F B) (a : A) (e : exn) :
  returns c a -> raises (k a) e -> raises (bind c k) e.
Proof.
  intros Hc Hk out. unfold bind. rewrite Hc. apply Hk.
Qed.

(** A loop over a concatenation runs the first part, then the second. *)
Lemma for_each_app {I S} (body : I -> S -> M F S) (l1 l2 : list I) (s : S) out :
  for_each body (l1 ++ l2) s out
  = bind (for_each body l1 s) (for_each body l2) out.
Proof.
  revert s out. induction l1 as [|i l1 IH]; intros s out; simpl.
  - reflexivity.
  - unfold bind in *. destruct (body i s out) as [[s'|e] out'].
    + apply IH.
    + reflexivity.
Qed.

End Running.

(** ** Loops over [range] and array reads *)

Section Loops.

Context {F : Type} {SF : Scalar F}.

Lemma range_succ (k : nat) :
  range (Z.of_nat (S k)) = range (Z.of_nat k) ++ [Z.of_nat k].
Proof.
  unfold range. rewrite !Nat2Z.id, seq_S, map_app. reflexivity.
Qed.

Lemma range_add (k j : nat) :
  range (Z.of_nat (k + j)) = range (Z.of_nat k) ++ map Z.of_nat (seq k j).
Proof.
  unfold range. rewrite !Nat2Z.id, seq_app, map_app. reflexivity.
Qed.

Lemma range_nonpos (n : Z) : (n <= 0)%Z -> range n = [].
Proof.
  intros Hn. unfold range.
  replace (Z.to_nat n) with O by lia. reflexivity.
Qed.

Lemma range_shape0 (x : list F) : range (shape0 x) = range (Z.of_nat (length x)).
Proof. reflexivity. Qed.

(** One more iteration at the end of a loop that returns. *)
Lemma for_each_snoc_returns {I S} (body : I -> S -> M F S) l i (s s1 s2 : S) :
  returns (for_each body l s) s1 ->
  returns (body i s1) s2 ->
  returns (for_each body (l ++ [i]) s) s2.
Proof.
  intros Hl Hi out. rewrite for_each_app. unfold bind. rewrite Hl.
  simpl. unfold bind. rewrite Hi. reflexivity.
Qed.

Lemma for_each_snoc_raises {I S} (body : I -> S -> M F S) l i (s s1 : S) e :
  returns (for_each body l s) s1 ->
  raises (body i s1) e ->
  raises (for_each body (l ++ [i]) s) e.
Proof.
  intros Hl Hi out. rewrite for_each_app. unfold bind. rewrite Hl.
  simpl. unfold bind. rewrite Hi. reflexivity.
Qed.

(** A loop that raises keeps raising when more iterations follow. *)
Lemma for_each_app_raises {I S} (body : I -> S -> M F S) l l' (s : S) e :
  raises (for_each body l s) e ->
  raises (for_each body (l ++ l') s) e.
Proof.
  intros Hl out. rewrite for_each_app. unfold bind. rewrite Hl. reflexivity.
Qed.

(** Reading inside the array. *)
Lemma index_inside (a : list F) (i : nat) :
  (i < length a)%nat -> returns (F:=F) (index a (Z.of_nat i)) (elt a i).
Proof.
  intros Hi out. unfold index, elt.
  assert (E : (Z.of_nat i <? 0)%Z = false) by (apply Z.ltb_ge; lia).
  cbv zeta. rewrite E, E, Nat2Z.id, (nth_error_nth' a (of_int 0) Hi).
  reflexivity.
Qed.

(** Reading past the end. *)
Lemma index_outside (a : list F) (i : nat) :
  (length a <= i)%nat -> raises (F:=F) (index a (Z.of_nat i)) IndexError.
Proof.
  intros Hi out. unfold index.
  assert (E : (Z.of_nat i <? 0)%Z = false) by (apply Z.ltb_ge; lia).
  cbv zeta. rewrite E, E, Nat2Z.id. apply nth_error_None in Hi.
  rewrite Hi. reflexivity.
Qed.

(** [a[-1]] is the last element of a non-empty list. *)
Lemma last_entry_snoc {A} (a : list A) (v : A) :
  returns (F:=F) (last_entry (a ++ [v])) v.
Proof.
  intros out. unfold last_entry, index. rewrite length_app.
  assert (E : (Z.of_nat (length a) <? 0)%Z = false) by (apply Z.ltb_ge; lia).
  change (-1 <? 0)%Z with true. cbv iota zeta.
  replace (-1 + Z.of_nat (length a + length [v]))%Z
    with (Z.of_nat (length a)) by (simpl length; lia).
  rewrite E, Nat2Z.id, nth_error_app2 by lia.
  rewrite Nat.sub_diag. reflexivity.
Qed.

Lemma last_entry_nonempty {A} (a : list A) :
  a <> [] -> exists v, returns (F:=F) (last_entry a) v.
Proof.
  intros Ha. destruct (exists_last Ha) as [a' [v ->]].
  exists v. apply last_entry_snoc.
Qed.

Lemma div_int_returns (a : F) (n : Z) :
  n <> 0%Z -> returns (div_int a n) (divide a (of_int n)).
Proof.
  intros Hn out. unfold div_int.
  destruct (Z.eqb_spec n 0) as [E|_]; [contradiction|reflexivity].
Qed.

End Loops.

(** ** [compute_cost] and [compute_gradient] compute the formulas *)

Section CostAndGradient.

Context {F : Type} {SF : Scalar F}.
Local Open Scope scalar_scope.

Variables (x y : list F) (m b : F).

Lemma cost_body_returns (i : nat) (cost_sum : F) :
  (i < length x)%nat -> (i < length y)%nat ->
  returns (cost_body x y m b (Z.of_nat i) cost_sum)
          (cost_sum + square (residual x y m b i)).
Proof.
  intros Hx Hy. unfold cost_body.
  eapply returns_bind; [apply index_inside, Hx|].
  eapply returns_bind; [apply index_inside, Hy|].
  apply returns_ret.
Qed.

(** The loop of [compute_cost] after [k] iterations holds the sum of the
    first [k] squared residuals. *)
Lemma cost_loop_returns (k : nat) :
  (k <= length x)%nat -> (k <= length y)%nat ->
  returns (for_each (cost_body x y m b) (range (Z.of_nat k)) (of_int 0))
          (big_sum (fun i => square (residual x y m b i)) k).
Proof.
  induction k as [|k IH]; intros Hx Hy.
  - apply returns_ret.
  - rewrite range_succ.
    eapply for_each_snoc_returns; [apply IH; lia|].
    apply cost_body_returns; lia.
Qed.

Lemma compute_cost_returns :
  x <> [] -> (length x <= length y)%nat ->
  returns (compute_cost x y m b) (cost_formula x y m b).
Proof.
  intros Hne Hlen. unfold compute_cost, cost_formula.
  assert (Hn : (2 * shape0 x)%Z <> 0%Z).
  { unfold shape0. destruct x; [contradiction|simpl length; lia]. }
  rewrite range_shape0.
  eapply returns_bind; [apply cost_loop_returns; lia|].
  eapply returns_bind; [apply div_int_returns, Hn|].
  apply returns_ret.
Qed.

Lemma gradient_body_returns (i : nat) (dj_dm dj_db : F) :
  (i < length x)%nat -> (i < length y)%nat ->
  returns (gradient_body x y m b (Z.of_nat i) (dj_dm, dj_db))
          (dj_dm + residual x y m b i * elt x i, dj_db + residual x y m b i).
Proof.
  intros Hx Hy. unfold gradient_body.
  eapply returns_bind; [apply index_inside, Hx|].
  eapply returns_bind; [apply index_inside, Hy|].
  eapply returns_bind; [apply index_inside, Hx|].
  eapply returns_bind; [apply index_inside, Hy|].
  apply returns_ret.
Qed.

(** The loop of [compute_gradient] after [k] iterations. *)
Lemma gradient_loop_returns (k : nat) :
  (k <= length x)%nat -> (k <= length y)%nat ->
  returns (for_each (gradient_body x y m b) (range (Z.of_nat k))
                    (of_int 0, of_int 0))
          (big_sum (fun i => residual x y m b i * elt x i) k,
           big_sum (fun i => residual x y m b i) k).
Proof.
  induction k as [|k IH]; intros Hx Hy.
  - apply returns_ret.
  - rewrite range_succ.
    eapply for_each_snoc_returns; [apply IH; lia|].
    apply gradient_body_returns; lia.
Qed.

Lemma compute_gradient_returns :
  x <> [] -> (length x <= length y)%nat ->
  returns (compute_gradient x y m b) (gradient_value x y m b).
Proof.
  intros Hne Hlen. unfold compute_gradient, gradient_value.
  assert (Hn : shape0 x <> 0%Z).
  { unfold shape0. destruct x; [contradiction|simpl length; lia]. }
  rewrite range_shape0.
  eapply returns_bind; [apply gradient_loop_returns; lia|].
  cbv beta iota zeta.
  eapply returns_bind; [apply div_int_returns, Hn|].
  eapply returns_bind; [apply div_int_returns, Hn|].
  apply returns_ret.
Qed.

(** On an empty data set both functions divide by zero. *)
Lemma compute_cost_empty : raises (compute_cost [] y m b) ZeroDivisionError.
Proof. intros out. reflexivity. Qed.

Lemma compute_gradient_empty : raises (compute_gradient [] y m b) ZeroDivisionError.
Proof. intros out. reflexivity. Qed.

(** When [y] is shorter than [x], reading [y] fails. *)
Lemma compute_cost_short_y :
  (length y < length x)%nat -> raises (compute_cost x y m b) IndexError.
Proof.
  intros Hlen. unfold compute_cost. apply raises_bind.
  rewrite range_shape0.
  replace (length x) with (S (length y) + (length x - S (length y)))%nat by lia.
  rewrite range_add. apply for_each_app_raises. rewrite range_succ.
  eapply for_each_snoc_raises; [apply cost_loop_returns; lia|].
  unfold cost_body.
  eapply returns_then_raises; [apply index_inside; lia|].
  apply raises_bind, index_outside. lia.
Qed.

End CostAndGradient.

(** ** The loop of [gradient_descent], whatever the callables do *)

Section GradientDescent.

Context {F : Type} {SF : Scalar F}.
Local Open Scope scalar_scope.

Variables (x y : list F) (alpha : F) (num_iters : Z).
Variables (cost_function : @cost_callable F)
          (gradient_function : @gradient_callable F).
Variables (m_in b_in : F).

Local Abbreviation prefix :=
  (gd_prefix x y alpha num_iters cost_function gradient_function m_in b_in).

Lemma gradient_descent_prefix :
  gradient_descent x y m_in b_in alpha num_iters cost_function gradient_function
  = prefix num_iters.
Proof. reflexivity. Qed.

Lemma range_succ_Z (i : Z) : (0 <= i)%Z -> range (i + 1) = range i ++ [i].
Proof.
  intros Hi. remember (Z.to_nat i) as k eqn:Ek.
  replace i with (Z.of_nat k) by lia.
  replace (Z.of_nat k + 1)%Z with (Z.of_nat (S k)) by lia.
  apply range_succ.
Qed.

(** The first [i + 1] iterations are the first [i] followed by the body at
    index [i]. *)
Lemma gd_prefix_succ (i : Z) out :
  (0 <= i)%Z ->
  prefix (i + 1) out
  = bind (prefix i)
         (gd_body x y alpha num_iters cost_function gradient_function i) out.
Proof.
  intros Hi. unfold gd_prefix. rewrite (range_succ_Z Hi), for_each_app.
  unfold bind. destruct (for_each _ (range i) _ out) as [[st|e] out1].
  - simpl. unfold bind.
    destruct (gd_body _ _ _ _ _ _ i st out1) as [[st'|e] out2]; reflexivity.
  - reflexivity.
Qed.

Lemma gd_prefix_succ_nat (k : nat) out :
  prefix (Z.of_nat (S k)) out
  = bind (prefix (Z.of_nat k))
         (gd_body x y alpha num_iters cost_function gradient_function
                  (Z.of_nat k)) out.
Proof.
  replace (Z.of_nat (S k)) with (Z.of_nat k + 1)%Z by lia.
  apply gd_prefix_succ. lia.
Qed.

Lemma print_interval_pos : (0 < num_iters)%Z -> (0 < print_interval num_iters)%Z.
Proof.
  intros Hn. unfold print_interval. apply Z.div_str_pos. lia.
Qed.

(** What one iteration does to the four variables, read off a run of the
    body that returned. *)
Lemma gd_body_inv i m b J P out m' b' J' P' out' :
  gd_body x y alpha num_iters cost_function gradient_function i (m, b, J, P) out
  = (Ok (m', b', J', P'), out') ->
  exists dj_dm dj_db out1,
    gradient_function x y m b out = (Ok (dj_dm, dj_db), out1)
    /\ m' = m - alpha * dj_dm
    /\ b' = b - alpha * dj_db
    /\ if (i <? 100000)%Z
       then exists c out2,
           cost_function x y m' b' out1 = (Ok c, out2)
           /\ J' = J ++ [c] /\ P' = P ++ [(m', b')]
       else J' = J /\ P' = P.
Proof.
  intros H. unfold gd_body, bind, is_multiple, ret, raise, print in H.
  destruct (gradient_function x y m b out) as [[[dj_dm dj_db]|e] out1] eqn:Eg;
    [|discriminate H].
  exists dj_dm, dj_db, out1. split; [reflexivity|].
  destruct (i <? 100000)%Z.
  - destruct (cost_function x y (m - alpha * dj_dm) (b - alpha * dj_db) out1)
      as [[c|e] out2] eqn:Ec; [|discriminate H].
    invert_run H; inversion H; subst;
      (split; [reflexivity|]; split; [reflexivity|]);
      exists c, out2; auto.
  - invert_run H; inversion H; subst; auto.
Qed.

(** Both histories hold one entry per iteration, up to the cap. *)
Lemma gd_prefix_lengths (k : nat) m b J P out out' :
  prefix (Z.of_nat k) out = (Ok (m, b, J, P), out') ->
  Z.of_nat (length J) = Z.min (Z.of_nat k) 100000
  /\ Z.of_nat (length P) = Z.min (Z.of_nat k) 100000.
Proof.
  revert m b J P out'. induction k as [|k IH]; intros m b J P out' H.
  - unfold gd_prefix in H. simpl in H. inversion H. auto.
  - rewrite gd_prefix_succ_nat in H. unfold bind in H.
    destruct (prefix (Z.of_nat k) out) as [[[[[m1 b1] J1] P1]|e] out1] eqn:E;
      [|discriminate H].
    destruct (IH _ _ _ _ _ eq_refl) as [HJ HP].
    apply gd_body_inv in H.
    destruct H as (dj_dm & dj_db & out2 & _ & _ & _ & H).
    destruct (Z.ltb_spec (Z.of_nat k) 100000) as [Hk|Hk].
    + destruct H as (c & out3 & _ & -> & ->).
      rewrite !length_app. simpl length. lia.
    + destruct H as [-> ->]. lia.
Qed.

(** One iteration, forwards: from what the two callables answer to what the
    body returns. *)
Lemma gd_body_run i m b J P out dj_dm dj_db out1 c out2 :
  (0 <= i < num_iters)%Z ->
  gradient_function x y m b out = (Ok (dj_dm, dj_db), out1) ->
  (if (i <? 100000)%Z
   then cost_function x y (m - alpha * dj_dm) (b - alpha * dj_db) out1
        = (Ok c, out2)
   else out2 = out1) ->
  ((100000 <= i)%Z -> J <> []) ->
  exists out3,
    gd_body x y alpha num_iters cost_function gradient_function i (m, b, J, P) out
    = (Ok (m - alpha * dj_dm, b - alpha * dj_db,
           (if (i <? 100000)%Z then J ++ [c] else J),
           (if (i <? 100000)%Z
            then P ++ [(m - alpha * dj_dm, b - alpha * dj_db)] else P)),
       out3).
Proof.
  intros Hi Hg Hc HJ.
  assert (HK : (print_interval num_iters =? 0)%Z = false).
  { apply Z.eqb_neq. pose proof print_interval_pos. lia. }
  unfold gd_body, bind. rewrite Hg.
  destruct (Z.ltb_spec i 100000) as [Hlt|Hge].
  - rewrite Hc. unfold is_multiple. rewrite HK. unfold ret.
    destruct (i mod print_interval num_iters =? 0)%Z; cbv beta iota.
    + rewrite last_entry_snoc. unfold print. eexists. reflexivity.
    + eexists. reflexivity.
  - subst out2. unfold is_multiple. rewrite HK. unfold ret.
    destruct (i mod print_interval num_iters =? 0)%Z; cbv beta iota.
    + destruct (last_entry_nonempty (F:=F) (HJ Hge)) as [v Hv].
      rewrite Hv. unfold print. eexists. reflexivity.
    + eexists. reflexivity.
Qed.

(** The same, with what the iteration adds to the output: at most the
    line it prints. *)
Lemma gd_body_step i m b J P out dj_dm dj_db out1 c out2 :
  (0 <= i < num_iters)%Z ->
  gradient_function x y m b out = (Ok (dj_dm, dj_db), out1) ->
  (if (i <? 100000)%Z
   then cost_function x y (m - alpha * dj_dm) (b - alpha * dj_db) out1
        = (Ok c, out2)
   else out2 = out1) ->
  ((100000 <= i)%Z -> J <> []) ->
  exists out3,
    gd_body x y alpha num_iters cost_function gradient_function i (m, b, J, P) out
    = (Ok (m - alpha * dj_dm, b - alpha * dj_db,
           (if (i <? 100000)%Z then J ++ [c] else J),
           (if (i <? 100000)%Z
            then P ++ [(m - alpha * dj_dm, b - alpha * dj_db)] else P)),
       out3)
    /\ (out3 = out2 \/ exists l, out3 = out2 ++ [l]).
Proof.
  intros Hi Hg Hc HJ.
  assert (HK : (print_interval num_iters =? 0)%Z = false).
  { apply Z.eqb_neq. pose proof print_interval_pos. lia. }
  unfold gd_body, bind. rewrite Hg.
  destruct (Z.ltb_spec i 100000) as [Hlt|Hge].
  - rewrite Hc. unfold is_multiple. rewrite HK. unfold ret.
    destruct (i mod print_interval num_iters =? 0)%Z; cbv beta iota.
    + rewrite last_entry_snoc. unfold print. eexists.
      split; [reflexivity|]. right. eexists. reflexivity.
    + eexists. split; [reflexivity|]. left. reflexivity.
  - subst out2. unfold is_multiple. rewrite HK. unfold ret.
    destruct (i mod print_interval num_iters =? 0)%Z; cbv beta iota.
    + destruct (last_entry_nonempty (F:=F) (HJ Hge)) as [v Hv].
      rewrite Hv. unfold print. eexists.
      split; [reflexivity|]. right. eexists. reflexivity.
    + eexists. split; [reflexivity|]. left. reflexivity.
Qed.

End GradientDescent.

(** ** The loop of [gradient_descent] with callables that are functions *)

Section Trajectory.

Context {F : Type} {SF : Scalar F}.
Local Open Scope scalar_scope.

Variables (x y : list F) (alpha : F) (num_iters : Z).
Variables (cost_function : @cost_callable F)
          (gradient_function : @gradient_callable F).
Variables (m_in b_in : F).

(** The callables are functions of the parameters: they return a value and
    have no effect. *)
Variables (cost : F -> F -> F) (grad : F -> F -> F * F).
Hypothesis cost_function_returns :
  forall m b, returns (cost_function x y m b) (cost m b).
Hypothesis gradient_function_returns :
  forall m b, returns (gradient_function x y m b) (grad m b).

Lemma params_upto_succ (k : nat) :
  params_upto grad alpha m_in b_in (S k)
  = params_upto grad alpha m_in b_in k ++ [params_after grad alpha m_in b_in (S k)].
Proof.
  unfold params_upto. rewrite seq_S, map_app. reflexivity.
Qed.

Lemma costs_upto_succ (k : nat) :
  costs_upto cost grad alpha m_in b_in (S k)
  = costs_upto cost grad alpha m_in b_in k
    ++ [cost (fst (params_after grad alpha m_in b_in (S k)))
             (snd (params_after grad alpha m_in b_in (S k)))].
Proof.
  unfold costs_upto. rewrite params_upto_succ, map_app. reflexivity.
Qed.

Lemma length_params_upto (k : nat) :
  length (params_upto grad alpha m_in b_in k) = k.
Proof. unfold params_upto. rewrite length_map, length_seq. reflexivity. Qed.

Lemma length_costs_upto (k : nat) :
  length (costs_upto cost grad alpha m_in b_in k) = k.
Proof. unfold costs_upto. rewrite length_map. apply length_params_upto. Qed.

Lemma nth_error_params_upto (k i : nat) :
  (i < k)%nat ->
  nth_error (params_upto grad alpha m_in b_in k) i
  = Some (params_after grad alpha m_in b_in (S i)).
Proof.
  intros Hi. unfold params_upto.
  rewrite nth_error_map, nth_error_seq.
  destruct (Nat.ltb_spec i k) as [_|Hge]; [reflexivity|lia].
Qed.

Lemma nth_error_costs_upto (k i : nat) :
  (i < k)%nat ->
  nth_error (costs_upto cost grad alpha m_in b_in k) i
  = Some (cost (fst (params_after grad alpha m_in b_in (S i)))
               (snd (params_after grad alpha m_in b_in (S i)))).
Proof.
  intros Hi. unfold costs_upto.
  rewrite nth_error_map, nth_error_params_upto by exact Hi. reflexivity.
Qed.

Lemma recorded_succ_below (k : nat) :
  (Z.of_nat k < 100000)%Z ->
  recorded (Z.of_nat k) = k /\ recorded (Z.of_nat (S k)) = S k.
Proof. intros Hk. unfold recorded. lia. Qed.

Lemma recorded_succ_above (k : nat) :
  (100000 <= Z.of_nat k)%Z ->
  recorded (Z.of_nat (S k)) = recorded (Z.of_nat k)
  /\ (0 < recorded (Z.of_nat k))%nat.
Proof. intros Hk. unfold recorded. lia. Qed.

(** The state of the loop after [k] iterations. *)
Lemma gd_prefix_run (k : nat) :
  (Z.of_nat k <= num_iters)%Z ->
  forall out, exists out',
    gd_prefix x y alpha num_iters cost_function gradient_function m_in b_in
              (Z.of_nat k) out
    = (Ok (params_after grad alpha m_in b_in k,
           costs_upto cost grad alpha m_in b_in (recorded (Z.of_nat k)),
           params_upto grad alpha m_in b_in (recorded (Z.of_nat k))),
       out').
Proof.
  induction k as [|k IH]; intros Hk out.
  - exists out. reflexivity.
  - destruct (IH ltac:(lia) out) as [out1 Hrun].
    rewrite gd_prefix_succ_nat. unfold bind at 1. rewrite Hrun.
    destruct (params_after grad alpha m_in b_in k) as [m b] eqn:Ep.
    destruct (grad m b) as [dj_dm dj_db] eqn:Eg.
    assert (Ep' : params_after grad alpha m_in b_in (S k)
                  = (m - alpha * dj_dm, b - alpha * dj_db)).
    { unfold params_after in *. simpl. rewrite Ep. simpl. rewrite Eg. reflexivity. }
    pose proof (gradient_function_returns m b out1) as Hg. rewrite Eg in Hg.
    destruct (Z.ltb_spec (Z.of_nat k) 100000) as [Hlt|Hge].
    + destruct (@recorded_succ_below k Hlt) as [R1 R2]. rewrite R1, R2.
      rewrite costs_upto_succ, params_upto_succ, Ep'. cbn [fst snd].
      edestruct (@gd_body_run F SF x y alpha num_iters cost_function
                   gradient_function (Z.of_nat k) m b
                   (costs_upto cost grad alpha m_in b_in k)
                   (params_upto grad alpha m_in b_in k)
                   out1 dj_dm dj_db out1
                   (cost (m - alpha * dj_dm) (b - alpha * dj_db)) out1)
        as [out3 Hbody]; [lia|exact Hg| | |].
      * destruct (Z.ltb_spec (Z.of_nat k) 100000); [|lia].
        apply cost_function_returns.
      * intros Hge. lia.
      * destruct (Z.ltb_spec (Z.of_nat k) 100000); [|lia].
        exists out3. exact Hbody.
    + destruct (@recorded_succ_above k Hge) as [R1 R2]. rewrite R1, Ep'.
      edestruct (@gd_body_run F SF x y alpha num_iters cost_function
                   gradient_function (Z.of_nat k) m b
                   (costs_upto cost grad alpha m_in b_in (recorded (Z.of_nat k)))
                   (params_upto grad alpha m_in b_in (recorded (Z.of_nat k)))
                   out1 dj_dm dj_db out1
                   (cost (m - alpha * dj_dm) (b - alpha * dj_db)) out1)
        as [out3 Hbody]; [lia|exact Hg| | |].
      * destruct (Z.ltb_spec (Z.of_nat k) 100000); [lia|reflexivity].
      * intros _ HJ. apply (f_equal (@length F)) in HJ.
        rewrite length_costs_upto in HJ. simpl in HJ. lia.
      * destruct (Z.ltb_spec (Z.of_nat k) 100000); [lia|].
        exists out3. exact Hbody.
Qed.

(** The whole run: it returns, with the parameters after [num_iters]
    updates and the histories of the recorded iterations. *)
Lemma gradient_descent_run :
  forall out, exists out',
    gradient_descent x y m_in b_in alpha num_iters cost_function gradient_function
                     out
    = (Ok (params_after grad alpha m_in b_in (Z.to_nat num_iters),
           costs_upto cost grad alpha m_in b_in (recorded num_iters),
           params_upto grad alpha m_in b_in (recorded num_iters)),
       out').
Proof.
  intros out. rewrite gradient_descent_prefix.
  destruct (Z.le_gt_cases 0 num_iters) as [Hn|Hn].
  - destruct (@gd_prefix_run (Z.to_nat num_iters) ltac:(lia) out) as [out' H].
    rewrite Z2Nat.id in H by exact Hn. exists out'. exact H.
  - exists out. unfold gd_prefix. rewrite range_nonpos by lia.
    replace (Z.to_nat num_iters) with O by lia.
    replace (recorded num_iters) with O by (unfold recorded; lia).
    reflexivity.
Qed.

End Trajectory.

(** ** What the histories of a run that returned hold, whatever the callables do *)

Section Histories.

Context {F : Type} {SF : Scalar F}.
Local Open Scope scalar_scope.

Variables (x y : list F) (alpha : F) (num_iters : Z).
Variables (cost_function : @cost_callable F)
          (gradient_function : @gradient_callable F).
Variables (m_in b_in : F).

Lemma parallel_records_nil : parallel_records x y cost_function [] [].
Proof.
  split; [reflexivity|]. intros i m b H. destruct i; discriminate H.
Qed.

Lemma parallel_records_snoc J P c m b out out' :
  parallel_records x y cost_function J P ->
  cost_function x y m b out = (Ok c, out') ->
  parallel_records x y cost_function (J ++ [c]) (P ++ [(m, b)]).
Proof.
  intros [Hlen Hrec] Hc. split.
  - rewrite !length_app, Hlen. reflexivity.
  - intros i mi bi Hi.
    destruct (Nat.lt_ge_cases i (length P)) as [Hlt|Hge].
    + rewrite nth_error_app1 in Hi by exact Hlt.
      destruct (Hrec _ _ _ Hi) as (ci & oa & ob & HJ & Hcall).
      exists ci, oa, ob. split; [|exact Hcall].
      rewrite nth_error_app1 by lia. exact HJ.
    + rewrite nth_error_app2 in Hi by exact Hge.
      destruct (i - length P)%nat as [|j] eqn:Ej.
      * simpl in Hi. inversion Hi; subst mi bi.
        exists c, out, out'. split; [|exact Hc].
        rewrite nth_error_app2 by lia.
        replace (i - length J)%nat with O by lia. reflexivity.
      * destruct j; discriminate Hi.
Qed.

Lemma gd_prefix_parallel (k : nat) m b J P out out' :
  gd_prefix x y alpha num_iters cost_function gradient_function m_in b_in
            (Z.of_nat k) out
  = (Ok (m, b, J, P), out') ->
  parallel_records x y cost_function J P.
Proof.
  revert m b J P out'. induction k as [|k IH]; intros m b J P out' H.
  - unfold gd_prefix in H. simpl in H. inversion H. apply parallel_records_nil.
  - rewrite gd_prefix_succ_nat in H. unfold bind in H.
    destruct (gd_prefix _ _ _ _ _ _ _ _ (Z.of_nat k) out)
      as [[[[[m1 b1] J1] P1]|e] out1] eqn:E; [|discriminate H].
    specialize (IH _ _ _ _ _ eq_refl).
    apply gd_body_inv in H.
    destruct H as (dj_dm & dj_db & out2 & _ & _ & _ & H).
    destruct (Z.of_nat k <? 100000)%Z.
    + destruct H as (c & out3 & Hc & -> & ->).
      eapply parallel_records_snoc; eassumption.
    + destruct H as [-> ->]. exact IH.
Qed.

(** While the cap is not reached, the last pair recorded is the current
    one. *)
Lemma gd_prefix_last (k : nat) m b J P out out' :
  (Z.of_nat k < 100000)%Z ->
  gd_prefix x y alpha num_iters cost_function gradient_function m_in b_in
            (Z.of_nat (S k)) out
  = (Ok (m, b, J, P), out') ->
  exists P0, P = P0 ++ [(m, b)].
Proof.
  intros Hk H. rewrite gd_prefix_succ_nat in H. unfold bind in H.
  destruct (gd_prefix _ _ _ _ _ _ _ _ (Z.of_nat k) out)
    as [[[[[m1 b1] J1] P1]|e] out1] eqn:E; [|discriminate H].
  apply gd_body_inv in H.
  destruct H as (dj_dm & dj_db & out2 & _ & _ & _ & H).
  destruct (Z.ltb_spec (Z.of_nat k) 100000) as [_|Hge]; [|lia].
  destruct H as (c & out3 & _ & _ & ->). exists P1. reflexivity.
Qed.

End Histories.

(** * The properties of the specification *)

(** ** The cost and the gradient *)

(** C1.  On a non-empty data set [(x, y)] of equal length [n], for every
    parameter pair [(m, b)], [compute_cost x y m b] returns
    [(1/(2n)) * Σ_{i<n} (m*x_i + b - y_i)^2] and has no side effect: whatever
    has been printed, it returns that value and the output is unchanged.
    The statement holds for every scalar arithmetic (binary64 included): the
    code evaluates the formula in the order it is written. *)
Theorem compute_cost_formula {F : Type} {SF : Scalar F}
    (x y : list F) (m b : F) :
  x <> [] ->
  length x = length y ->
  forall out, compute_cost x y m b out = (Ok (cost_formula x y m b), out).
Proof.
  intros Hne Hlen. apply compute_cost_returns; [exact Hne|lia].
Qed.

Lemma compute_cost_formula_witness :
  compute_cost (F:=PrimFloat.float) x_train y_train (of_int 0) (of_int 0) []
  = (Ok (cost_formula x_train y_train (of_int 0) (of_int 0)), []).
Proof.
  apply (@compute_cost_formula PrimFloat.float binary64
           x_train y_train (of_int 0) (of_int 0)).
  - discriminate.
  - reflexivity.
Defined.

(** In exact arithmetic the quotient of a sum by [n] is its product by
    [1/n]: there [compute_gradient] returns
    [((1/n) * Σ (m*x_i + b - y_i) * x_i, (1/n) * Σ (m*x_i + b - y_i))]. *)
Lemma compute_gradient_formula_exact (x y : list R) (m b : R) :
  x <> [] ->
  length x = length y ->
  forall out,
    compute_gradient x y m b out
    = (Ok ((1 / INR (length x) * slope_sum x y m b)%R,
           (1 / INR (length x) * intercept_sum x y m b)%R),
       out).
Proof.
  intros Hne Hlen out.
  rewrite (@compute_gradient_returns R real_scalar x y m b Hne) by lia.
  unfold gradient_value. simpl of_int. simpl divide.
  rewrite <- INR_IZR_INZ.
  assert (Hn : INR (length x) <> 0%R).
  { apply not_0_INR. destruct x; [contradiction|discriminate]. }
  do 3 f_equal; field; exact Hn.
Qed.

(** C2, as the specification states it, fails in binary64: the code
    divides each sum by [n], which is not the product by [1/n] there.  On
    [x = [1, 1, 1]], [y = [-5, 0, 0]] at [(0, 0)] both sums are [5];
    [compute_gradient] returns [5 / 3] twice, and [(1/3) * 5] is strictly
    below it. *)
Lemma compute_gradient_quotient_not_product :
  compute_gradient (F:=PrimFloat.float)
    [of_int 1; of_int 1; of_int 1] [of_int (-5); of_int 0; of_int 0]
    (of_int 0) (of_int 0) []
  = (Ok (divide (of_int 5) (of_int 3), divide (of_int 5) (of_int 3)), [])
  /\ PrimFloat.ltb
       (times (divide (of_int 1) (of_int 3))
              (slope_sum [of_int 1; of_int 1; of_int 1]
                         [of_int (-5); of_int 0; of_int 0]
                         (of_int 0) (of_int 0)))
       (divide (of_int 5) (of_int 3)) = true
  /\ PrimFloat.ltb
       (times (divide (of_int 1) (of_int 3))
              (intercept_sum [of_int 1; of_int 1; of_int 1]
                             [of_int (-5); of_int 0; of_int 0]
                             (of_int 0) (of_int 0)))
       (divide (of_int 5) (of_int 3)) = true.
Proof.
  split; [vm_compute; reflexivity|].
  split; vm_compute; reflexivity.
Qed.

(** C2, amended.  On a non-empty data set [(x, y)] of equal length [n], for
    every parameter pair [(m, b)], [compute_gradient x y m b] returns the
    pair [((Σ (m*x_i + b - y_i) * x_i) / n, (Σ (m*x_i + b - y_i)) / n)], each
    sum divided by [n], and has no side effect: whatever has been printed,
    it returns that pair and the output is unchanged.  The statement holds
    for every scalar arithmetic, binary64 included. *)
Theorem compute_gradient_formula {F : Type} {SF : Scalar F}
    (x y : list F) (m b : F) :
  x <> [] ->
  length x = length y ->
  forall out,
    compute_gradient x y m b out
    = (Ok (divide (slope_sum x y m b) (of_int (Z.of_nat (length x))),
           divide (intercept_sum x y m b) (of_int (Z.of_nat (length x)))),
       out).
Proof.
  intros Hne Hlen out.
  rewrite (@compute_gradient_returns F SF x y m b Hne) by lia.
  reflexivity.
Qed.

Lemma compute_gradient_formula_witness :
  compute_gradient (F:=PrimFloat.float)
    [of_int 1; of_int 1; of_int 1] [of_int (-5); of_int 0; of_int 0]
    (of_int 0) (of_int 0) []
  = (Ok (divide (slope_sum [of_int 1; of_int 1; of_int 1]
                           [of_int (-5); of_int 0; of_int 0]
                           (of_int 0) (of_int 0))
                (of_int (Z.of_nat 3)),
         divide (intercept_sum [of_int 1; of_int 1; of_int 1]
                               [of_int (-5); of_int 0; of_int 0]
                               (of_int 0) (of_int 0))
                (of_int (Z.of_nat 3))),
     []).
Proof.
  apply (@compute_gradient_formula PrimFloat.float binary64
           [of_int 1; of_int 1; of_int 1] [of_int (-5); of_int 0; of_int 0]
           (of_int 0) (of_int 0)).
  - discriminate.
  - reflexivity.
Defined.

(** ** The loop of gradient descent *)

(** The first [i + 1] iterations, from what the first [i] left and what the
    two callables answer in iteration [i]. *)
Lemma gd_prefix_iteration {F : Type} {SF : Scalar F}
    (x y : list F) (alpha : F) (num_iters : Z)
    (cost_function : cost_callable) (gradient_function : gradient_callable)
    (m_in b_in : F) (i : Z) (m b : F) (J : list F) (P : list (F * F))
    (dj_dm dj_db c : F) (out0 out1 out2 out3 : stdout F) :
  (0 <= i < num_iters)%Z ->
  gd_prefix x y alpha num_iters cost_function gradient_function m_in b_in i out0
  = (Ok (m, b, J, P), out1) ->
  gradient_function x y m b out1 = (Ok (dj_dm, dj_db), out2) ->
  (if (i <? 100000)%Z
   then cost_function x y (minus m (times alpha dj_dm))
                      (minus b (times alpha dj_db)) out2 = (Ok c, out3)
   else out3 = out2) ->
  exists out4,
    gd_prefix x y alpha num_iters cost_function gradient_function m_in b_in
              (i + 1) out0
    = (Ok (minus m (times alpha dj_dm), minus b (times alpha dj_db),
           (if (i <? 100000)%Z then J ++ [c] else J),
           (if (i <? 100000)%Z
            then P ++ [(minus m (times alpha dj_dm), minus b (times alpha dj_db))]
            else P)),
       out4)
    /\ (out4 = out3 \/ exists l, out4 = out3 ++ [l]).
Proof.
  intros Hi Hrun Hg Hc.
  rewrite gd_prefix_succ by lia. unfold bind. rewrite Hrun.
  eapply gd_body_step; try eassumption.
  intros Hcap HJ. subst J.
  replace i with (Z.of_nat (Z.to_nat i)) in Hrun by lia.
  apply gd_prefix_lengths in Hrun. simpl length in Hrun. lia.
Qed.

(** The indices [range(num_iters)] still has after [k]. *)
Lemma range_from (k n : Z) :
  (0 <= k <= n)%Z ->
  range n = range k ++ map Z.of_nat (seq (Z.to_nat k) (Z.to_nat (n - k))).
Proof.
  intros Hk.
  replace n with (Z.of_nat (Z.to_nat k + Z.to_nat (n - k))) at 1 by lia.
  rewrite range_add. replace (Z.of_nat (Z.to_nat k)) with k by lia.
  reflexivity.
Qed.

(** C3.  Iteration [i] of a run of [gradient_descent]
    ([0 <= i < num_iters]), taken from the state [(m, b, J, P)] that the
    iterations [0 .. i - 1] of its loop left: it calls the gradient function
    once, on the current pair [(m, b)]; with its answer [(dj_dm, dj_db)]
    both parameters are updated from that same pair, [m] to
    [m - alpha * dj_dm] and [b] to [b - alpha * dj_db]; and when
    [i < 100000] the cost of the new pair and the new pair are appended to
    the histories (beyond, the histories are left as they are).  The run of
    [gradient_descent] then goes on with the iterations
    [i + 1 .. num_iters - 1] from exactly that state, and returns it when
    [i] is the last iteration.  The callables are arbitrary: the outputs
    [out1], [out2], [out3] thread the calls in the order the code makes
    them, and after the cost call the iteration at most prints one line. *)
Theorem gradient_descent_iteration {F : Type} {SF : Scalar F}
    (x y : list F) (alpha : F) (num_iters : Z)
    (cost_function : cost_callable) (gradient_function : gradient_callable)
    (m_in b_in : F) (i : Z) (m b : F) (J : list F) (P : list (F * F))
    (dj_dm dj_db c : F) (out0 out1 out2 out3 : stdout F) :
  (0 <= i < num_iters)%Z ->
  for_each (gd_body x y alpha num_iters cost_function gradient_function)
           (range i) (m_in, b_in, [], []) out0
  = (Ok (m, b, J, P), out1) ->
  gradient_function x y m b out1 = (Ok (dj_dm, dj_db), out2) ->
  (if (i <? 100000)%Z
   then cost_function x y (minus m (times alpha dj_dm))
                      (minus b (times alpha dj_db)) out2 = (Ok c, out3)
   else out3 = out2) ->
  exists out4,
    gradient_descent x y m_in b_in alpha num_iters
                     cost_function gradient_function out0
    = for_each (gd_body x y alpha num_iters cost_function gradient_function)
               (map Z.of_nat (seq (Z.to_nat (i + 1))
                                  (Z.to_nat (num_iters - (i + 1)))))
               (minus m (times alpha dj_dm), minus b (times alpha dj_db),
                (if (i <? 100000)%Z then J ++ [c] else J),
                (if (i <? 100000)%Z
                 then P ++ [(minus m (times alpha dj_dm),
                             minus b (times alpha dj_db))]
                 else P))
               out4
    /\ (out4 = out3 \/ exists l, out4 = out3 ++ [l])
    /\ ((i + 1 = num_iters)%Z ->
        gradient_descent x y m_in b_in alpha num_iters
                         cost_function gradient_function out0
        = (Ok (minus m (times alpha dj_dm), minus b (times alpha dj_db),
               (if (i <? 100000)%Z then J ++ [c] else J),
               (if (i <? 100000)%Z
                then P ++ [(minus m (times alpha dj_dm),
                            minus b (times alpha dj_db))]
                else P)),
           out4)).
Proof.
  intros Hi Hrun Hg Hc.
  destruct (@gd_prefix_iteration F SF x y alpha num_iters cost_function
              gradient_function m_in b_in i m b J P dj_dm dj_db c
              out0 out1 out2 out3 Hi Hrun Hg Hc) as [out4 [Hstep Hout]].
  exists out4.
  assert (Hgd : gradient_descent x y m_in b_in alpha num_iters
                                 cost_function gradient_function out0
                = for_each (gd_body x y alpha num_iters cost_function
                                    gradient_function)
                    (map Z.of_nat (seq (Z.to_nat (i + 1))
                                       (Z.to_nat (num_iters - (i + 1)))))
                    (minus m (times alpha dj_dm), minus b (times alpha dj_db),
                     (if (i <? 100000)%Z then J ++ [c] else J),
                     (if (i <? 100000)%Z
                      then P ++ [(minus m (times alpha dj_dm),
                                  minus b (times alpha dj_db))]
                      else P))
                    out4).
  { unfold gradient_descent. cbv zeta.
    rewrite (@range_from (i + 1) num_iters) by lia.
    rewrite for_each_app. unfold bind at 1.
    unfold gd_prefix in Hstep. rewrite Hstep. reflexivity. }
  split; [exact Hgd|]. split; [exact Hout|].
  intros Hlast. rewrite Hgd.
  replace (Z.to_nat (num_iters - (i + 1))) with O by lia. reflexivity.
Qed.

Lemma gradient_descent_iteration_witness :
  exists out4,
    gradient_descent (F:=PrimFloat.float) x_train y_train
                     (of_int 0) (of_int 0) (of_int 1) 2
                     compute_cost compute_gradient []
    = for_each (gd_body x_train y_train (of_int 1) 2
                        compute_cost compute_gradient)
               (map Z.of_nat (seq (Z.to_nat (0 + 1)) (Z.to_nat (2 - (0 + 1)))))
               (minus (of_int 0) (times (of_int 1) (of_int (-650))),
                minus (of_int 0) (times (of_int 1) (of_int (-400))),
                (if (0 <? 100000)%Z then [] ++ [of_int 500625] else []),
                (if (0 <? 100000)%Z
                 then [] ++ [(minus (of_int 0) (times (of_int 1) (of_int (-650))),
                              minus (of_int 0) (times (of_int 1) (of_int (-400))))]
                 else []))
               out4
    /\ (out4 = [] \/ exists l, out4 = [] ++ [l])
    /\ ((0 + 1 = 2)%Z ->
        gradient_descent (F:=PrimFloat.float) x_train y_train
                         (of_int 0) (of_int 0) (of_int 1) 2
                         compute_cost compute_gradient []
        = (Ok (minus (of_int 0) (times (of_int 1) (of_int (-650))),
               minus (of_int 0) (times (of_int 1) (of_int (-400))),
               (if (0 <? 100000)%Z then [] ++ [of_int 500625] else []),
               (if (0 <? 100000)%Z
                then [] ++ [(minus (of_int 0) (times (of_int 1) (of_int (-650))),
                             minus (of_int 0) (times (of_int 1) (of_int (-400))))]
                else [])),
           out4)).
Proof.
  apply (@gradient_descent_iteration PrimFloat.float binary64
           x_train y_train (of_int 1) 2 compute_cost compute_gradient
           (of_int 0) (of_int 0) 0 (of_int 0) (of_int 0) [] []
           (of_int (-650)) (of_int (-400)) (of_int 500625) [] [] [] []).
  - lia.
  - reflexivity.
  - vm_compute. reflexivity.
  - vm_compute. reflexivity.
Defined.

(** C4.  For a non-negative iteration count [num_iters]: the cost history
    and the parameter history [gradient_descent] returns each have length
    [min(num_iters, 100000)] (first part: whatever the callables do); and
    when the callables are functions of the parameters the call returns,
    entry [i] of the histories is the pair after iteration [i] (that is,
    after [i + 1] updates) and its cost, and the pair returned is the one
    after [num_iters] updates: iterations from index [100000] on still
    update the parameters while the histories stay at [100000] entries. *)
Theorem gradient_descent_history_length {F : Type} {SF : Scalar F}
    (x y : list F) (alpha : F) (num_iters : Z)
    (cost_function : cost_callable) (gradient_function : gradient_callable)
    (m_in b_in : F) :
  (0 <= num_iters)%Z ->
  (forall out m b J P out',
      gradient_descent x y m_in b_in alpha num_iters
                       cost_function gradient_function out
      = (Ok (m, b, J, P), out') ->
      Z.of_nat (length J) = Z.min num_iters 100000
      /\ Z.of_nat (length P) = Z.min num_iters 100000)
  /\ (forall (cost : F -> F -> F) (grad : F -> F -> F * F),
      (forall m b, returns (cost_function x y m b) (cost m b)) ->
      (forall m b, returns (gradient_function x y m b) (grad m b)) ->
      forall out, exists m b J P out',
        gradient_descent x y m_in b_in alpha num_iters
                         cost_function gradient_function out
        = (Ok (m, b, J, P), out')
        /\ Z.of_nat (length J) = Z.min num_iters 100000
        /\ Z.of_nat (length P) = Z.min num_iters 100000
        /\ (forall i, (i < length P)%nat ->
              nth_error P i = Some (params_after grad alpha m_in b_in (S i))
              /\ nth_error J i
                 = Some (cost (fst (params_after grad alpha m_in b_in (S i)))
                              (snd (params_after grad alpha m_in b_in (S i)))))
        /\ (m, b) = params_after grad alpha m_in b_in (Z.to_nat num_iters)).
Proof.
  intros Hn. split.
  - intros out m b J P out' H. rewrite gradient_descent_prefix in H.
    replace num_iters with (Z.of_nat (Z.to_nat num_iters)) in H at 2 by lia.
    apply gd_prefix_lengths in H. lia.
  - intros cost grad Hcost Hgrad out.
    destruct (@gradient_descent_run F SF x y alpha num_iters cost_function
                gradient_function m_in b_in cost grad Hcost Hgrad out)
      as [out' Hrun].
    destruct (params_after grad alpha m_in b_in (Z.to_nat num_iters))
      as [m b] eqn:Ep.
    exists m, b, (costs_upto cost grad alpha m_in b_in (recorded num_iters)),
      (params_upto grad alpha m_in b_in (recorded num_iters)), out'.
    split; [exact Hrun|].
    rewrite length_costs_upto, length_params_upto.
    repeat split; try (unfold recorded; lia).
    + apply nth_error_params_upto. assumption.
    + apply nth_error_costs_upto. assumption.
Qed.

(** C5.  With [num_iters = 0], [gradient_descent] returns the initial
    parameters and two empty histories, for every data set, learning rate
    and callables; it calls nothing and prints nothing. *)
Theorem gradient_descent_zero_iterations {F : Type} {SF : Scalar F}
    (x y : list F) (m_in b_in alpha : F)
    (cost_function : cost_callable) (gradient_function : gradient_callable) :
  forall out,
    gradient_descent x y m_in b_in alpha 0 cost_function gradient_function out
    = (Ok (m_in, b_in, [], []), out).
Proof. intros out. reflexivity. Qed.

(** C9.  For [1 <= num_iters <= 100000], the pair [(m, b)] that
    [gradient_descent] returns is the last entry of the parameter history
    it returns (first part: whatever the callables do; second part: with
    callables that are functions the call does return). *)
Theorem gradient_descent_final_is_last {F : Type} {SF : Scalar F}
    (x y : list F) (alpha : F) (num_iters : Z)
    (cost_function : cost_callable) (gradient_function : gradient_callable)
    (m_in b_in : F) :
  (1 <= num_iters <= 100000)%Z ->
  (forall out m b J P out',
      gradient_descent x y m_in b_in alpha num_iters
                       cost_function gradient_function out
      = (Ok (m, b, J, P), out') ->
      P <> [] /\ last P (m_in, b_in) = (m, b))
  /\ (forall (cost : F -> F -> F) (grad : F -> F -> F * F),
      (forall m b, returns (cost_function x y m b) (cost m b)) ->
      (forall m b, returns (gradient_function x y m b) (grad m b)) ->
      forall out, exists m b J P out',
        gradient_descent x y m_in b_in alpha num_iters
                         cost_function gradient_function out
        = (Ok (m, b, J, P), out')
        /\ P <> [] /\ last P (m_in, b_in) = (m, b)).
Proof.
  intros Hn.
  assert (Hlast : forall out m b J P out',
      gradient_descent x y m_in b_in alpha num_iters
                       cost_function gradient_function out
      = (Ok (m, b, J, P), out') ->
      P <> [] /\ last P (m_in, b_in) = (m, b)).
  { intros out m b J P out' H. rewrite gradient_descent_prefix in H.
    replace num_iters with (Z.of_nat (S (Z.to_nat (num_iters - 1)))) in H at 2
      by lia.
    apply gd_prefix_last in H; [|lia].
    destruct H as [P0 ->]. split.
    - intros E. apply app_eq_nil in E. destruct E as [_ E]. discriminate E.
    - apply last_last. }
  split; [exact Hlast|].
  intros cost grad Hcost Hgrad out.
  destruct (@gradient_descent_run F SF x y alpha num_iters cost_function
              gradient_function m_in b_in cost grad Hcost Hgrad out)
    as [out' Hrun].
  destruct (params_after grad alpha m_in b_in (Z.to_nat num_iters))
    as [m b] eqn:Ep.
  exists m, b, (costs_upto cost grad alpha m_in b_in (recorded num_iters)),
    (params_upto grad alpha m_in b_in (recorded num_iters)), out'.
  split; [exact Hrun|]. eapply Hlast. exact Hrun.
Qed.

(** C10.  The two histories [gradient_descent] returns are parallel
    records: they have the same length, and the cost at index [i] is what
    [cost_function] answers on the data set at the pair stored at index [i]
    of the parameter history (first part: whatever the callables do, each
    cost is the answer of one call at that pair; second part: with callables
    that are functions the call returns and each cost is the value of
    [cost_function] at that pair). *)
Theorem gradient_descent_parallel_histories {F : Type} {SF : Scalar F}
    (x y : list F) (alpha : F) (num_iters : Z)
    (cost_function : cost_callable) (gradient_function : gradient_callable)
    (m_in b_in : F) :
  (forall out m b J P out',
      gradient_descent x y m_in b_in alpha num_iters
                       cost_function gradient_function out
      = (Ok (m, b, J, P), out') ->
      length J = length P
      /\ forall i mi bi, nth_error P i = Some (mi, bi) ->
           exists c oa ob,
             nth_error J i = Some c
             /\ cost_function x y mi bi oa = (Ok c, ob))
  /\ (forall (cost : F -> F -> F) (grad : F -> F -> F * F),
      (forall m b, returns (cost_function x y m b) (cost m b)) ->
      (forall m b, returns (gradient_function x y m b) (grad m b)) ->
      forall out, exists m b J P out',
        gradient_descent x y m_in b_in alpha num_iters
                         cost_function gradient_function out
        = (Ok (m, b, J, P), out')
        /\ length J = length P
        /\ forall i mi bi, nth_error P i = Some (mi, bi) ->
             exists c,
               nth_error J i = Some c
               /\ returns (cost_function x y mi bi) c).
Proof.
  split.
  - intros out m b J P out' H. rewrite gradient_descent_prefix in H.
    destruct (Z.le_gt_cases 0 num_iters) as [Hn|Hn].
    + replace num_iters with (Z.of_nat (Z.to_nat num_iters)) in H at 2 by lia.
      apply gd_prefix_parallel in H. exact H.
    + unfold gd_prefix in H. rewrite range_nonpos in H by lia.
      inversion H. apply parallel_records_nil.
  - intros cost grad Hcost Hgrad out.
    destruct (@gradient_descent_run F SF x y alpha num_iters cost_function
                gradient_function m_in b_in cost grad Hcost Hgrad out)
      as [out' Hrun].
    destruct (params_after grad alpha m_in b_in (Z.to_nat num_iters))
      as [m b] eqn:Ep.
    exists m, b, (costs_upto cost grad alpha m_in b_in (recorded num_iters)),
      (params_upto grad alpha m_in b_in (recorded num_iters)), out'.
    split; [exact Hrun|].
    rewrite length_costs_upto, length_params_upto.
    split; [reflexivity|].
    intros i mi bi Hi. exists (cost mi bi). split; [|apply Hcost].
    unfold costs_upto. rewrite nth_error_map, Hi. reflexivity.
Qed.

(** The training set is not empty and its two arrays are as long as each
    other, so that [compute_cost] and [compute_gradient] are functions of
    the parameters on it. *)
Lemma x_train_nonempty {F : Type} {SF : Scalar F} : x_train (F:=F) <> [].
Proof. discriminate. Qed.

Lemma train_lengths {F : Type} {SF : Scalar F} :
  (length (x_train (F:=F)) <= length (y_train (F:=F)))%nat.
Proof. apply Nat.le_refl. Qed.

Lemma compute_cost_train {F : Type} {SF : Scalar F} (m b : F) :
  returns (compute_cost x_train y_train m b) (cost_formula x_train y_train m b).
Proof. apply compute_cost_returns; [apply x_train_nonempty|apply train_lengths]. Qed.

Lemma compute_gradient_train {F : Type} {SF : Scalar F} (m b : F) :
  returns (compute_gradient x_train y_train m b)
          (gradient_value x_train y_train m b).
Proof.
  apply compute_gradient_returns; [apply x_train_nonempty|apply train_lengths].
Qed.

Lemma gradient_descent_history_length_witness :
  exists m b J P out',
    gradient_descent (F:=PrimFloat.float) x_train y_train (of_int 0) (of_int 0)
                     tmp_alpha 3 compute_cost compute_gradient []
    = (Ok (m, b, J, P), out')
    /\ Z.of_nat (length J) = Z.min 3 100000
    /\ Z.of_nat (length P) = Z.min 3 100000
    /\ (forall i, (i < length P)%nat ->
          nth_error P i
          = Some (params_after (gradient_value x_train y_train) tmp_alpha
                               (of_int 0) (of_int 0) (S i))
          /\ nth_error J i
             = Some (cost_formula x_train y_train
                       (fst (params_after (gradient_value x_train y_train)
                                          tmp_alpha (of_int 0) (of_int 0) (S i)))
                       (snd (params_after (gradient_value x_train y_train)
                                          tmp_alpha (of_int 0) (of_int 0) (S i)))))
    /\ (m, b) = params_after (gradient_value x_train y_train) tmp_alpha
                             (of_int 0) (of_int 0) (Z.to_nat 3).
Proof.
  assert (H3 : (0 <= 3)%Z) by lia.
  exact (proj2 (@gradient_descent_history_length PrimFloat.float binary64
                  x_train y_train tmp_alpha 3 compute_cost compute_gradient
                  (of_int 0) (of_int 0) H3)
               (cost_formula x_train y_train) (gradient_value x_train y_train)
               compute_cost_train compute_gradient_train []).
Defined.

Lemma gradient_descent_final_is_last_witness :
  exists m b J P out',
    gradient_descent (F:=PrimFloat.float) x_train y_train (of_int 0) (of_int 0)
                     tmp_alpha 3 compute_cost compute_gradient []
    = (Ok (m, b, J, P), out')
    /\ P <> [] /\ last P (of_int 0, of_int 0) = (m, b).
Proof.
  assert (H3 : (1 <= 3 <= 100000)%Z) by lia.
  exact (proj2 (@gradient_descent_final_is_last PrimFloat.float binary64
                  x_train y_train tmp_alpha 3 compute_cost compute_gradient
                  (of_int 0) (of_int 0) H3)
               (cost_formula x_train y_train) (gradient_value x_train y_train)
               compute_cost_train compute_gradient_train []).
Defined.

Lemma gradient_descent_parallel_histories_witness :
  exists m b J P out',
    gradient_descent (F:=PrimFloat.float) x_train y_train (of_int 0) (of_int 0)
                     tmp_alpha 3 compute_cost compute_gradient []
    = (Ok (m, b, J, P), out')
    /\ length J = length P
    /\ forall i mi bi, nth_error P i = Some (mi, bi) ->
         exists c,
           nth_error J i = Some c
           /\ returns (compute_cost x_train y_train mi bi) c.
Proof.
  exact (proj2 (@gradient_descent_parallel_histories PrimFloat.float binary64
                  x_train y_train tmp_alpha 3 compute_cost compute_gradient
                  (of_int 0) (of_int 0))
               (cost_formula x_train y_train) (gradient_value x_train y_train)
               compute_cost_train compute_gradient_train []).
Defined.

(** ** Calls outside the preconditions *)

(** [range(n)] starts at [0] as soon as [n >= 1]. *)
Lemma range_pos (n : Z) :
  (1 <= n)%Z -> exists rest, range n = 0%Z :: rest.
Proof.
  intros Hn. unfold range.
  destruct (Z.to_nat n) as [|k] eqn:E; [lia|].
  exists (map Z.of_nat (seq 1 k)). reflexivity.
Qed.

(** An exception of the gradient function in the first iteration leaves
    [gradient_descent] at once. *)
Lemma gradient_descent_raises {F : Type} {SF : Scalar F}
    (x y : list F) (m_in b_in alpha : F) (num_iters : Z)
    (cost_function : cost_callable) (gradient_function : gradient_callable)
    (e : exn) :
  (1 <= num_iters)%Z ->
  raises (gradient_function x y m_in b_in) e ->
  raises (gradient_descent x y m_in b_in alpha num_iters
                           cost_function gradient_function) e.
Proof.
  intros Hn Hg. unfold gradient_descent.
  destruct (range_pos Hn) as [rest ->]. simpl.
  apply raises_bind. unfold gd_body. apply raises_bind. exact Hg.
Qed.

Lemma gradient_descent_nonpos {F : Type} {SF : Scalar F}
    (x y : list F) (m_in b_in alpha : F) (num_iters : Z)
    (cost_function : cost_callable) (gradient_function : gradient_callable) :
  (num_iters <= 0)%Z ->
  returns (gradient_descent x y m_in b_in alpha num_iters
                            cost_function gradient_function)
          (m_in, b_in, [], []).
Proof.
  intros Hn out. unfold gradient_descent. rewrite range_nonpos by exact Hn.
  reflexivity.
Qed.

(** C6, as the specification states it, fails: no call outside the
    preconditions is rejected as such.  In binary64, on the training set: a
    negative iteration count returns the initial parameters and empty
    histories; an infinite learning rate is computed with and the run
    returns; and on an empty data set a run of no iteration returns. *)
Lemma precondition_violations_accepted :
  ((-1 < 0)%Z
   /\ gradient_descent (F:=PrimFloat.float) x_train y_train
        (of_int 0) (of_int 0) tmp_alpha (-1) compute_cost compute_gradient []
      = (Ok (of_int 0, of_int 0, [], []), []))
  /\ (PrimFloat.is_finite PrimFloat.infinity = false
      /\ exists st out,
          gradient_descent (F:=PrimFloat.float) x_train y_train
            (of_int 0) (of_int 0) PrimFloat.infinity 2
            compute_cost compute_gradient []
          = (Ok st, out))
  /\ gradient_descent (F:=PrimFloat.float) [] []
       (of_int 0) (of_int 0) tmp_alpha 0 compute_cost compute_gradient []
     = (Ok (of_int 0, of_int 0, [], []), []).
Proof.
  split; [split; [lia|reflexivity]|].
  split; [|reflexivity].
  split; [reflexivity|].
  eexists. eexists. vm_compute. reflexivity.
Qed.

(** C6, amended.  No argument is validated.  On an empty data set
    [compute_cost] and [compute_gradient] fail with a division by zero, and
    so does [gradient_descent] (with them as callables) as soon as it runs
    one iteration; with an iteration count [<= 0], negative included,
    [gradient_descent] returns the initial parameters and empty histories,
    whatever the data set and the callables; and on a non-empty data set of
    equal lengths every learning rate is accepted: the run returns. *)
Theorem precondition_violations {F : Type} {SF : Scalar F} :
  (forall (y : list F) m b, raises (compute_cost [] y m b) ZeroDivisionError)
  /\ (forall (y : list F) m b,
        raises (compute_gradient [] y m b) ZeroDivisionError)
  /\ (forall (y : list F) m_in b_in alpha num_iters,
        (1 <= num_iters)%Z ->
        raises (gradient_descent [] y m_in b_in alpha num_iters
                                 compute_cost compute_gradient)
               ZeroDivisionError)
  /\ (forall (x y : list F) m_in b_in alpha num_iters
             (cost_function : cost_callable)
             (gradient_function : gradient_callable),
        (num_iters <= 0)%Z ->
        returns (gradient_descent x y m_in b_in alpha num_iters
                                  cost_function gradient_function)
                (m_in, b_in, [], []))
  /\ (forall (x y : list F) m_in b_in alpha num_iters,
        x <> [] -> length x = length y -> (0 <= num_iters)%Z ->
        forall out, exists st out',
          gradient_descent x y m_in b_in alpha num_iters
                           compute_cost compute_gradient out
          = (Ok st, out')).
Proof.
  split; [intros; apply compute_cost_empty|].
  split; [intros; apply compute_gradient_empty|].
  split.
  { intros y m_in b_in alpha num_iters Hn.
    apply gradient_descent_raises; [exact Hn|apply compute_gradient_empty]. }
  split.
  { intros. apply gradient_descent_nonpos. assumption. }
  intros x y m_in b_in alpha num_iters Hne Hlen Hn out.
  destruct (@gradient_descent_run F SF x y alpha num_iters
              compute_cost compute_gradient m_in b_in
              (cost_formula x y) (gradient_value x y)) with (out := out)
    as [out' Hrun].
  - intros m b. apply compute_cost_returns; [exact Hne|lia].
  - intros m b. apply compute_gradient_returns; [exact Hne|lia].
  - eexists. exists out'. exact Hrun.
Qed.

Lemma precondition_violations_witness :
  raises (gradient_descent (F:=PrimFloat.float) [] y_train
            (of_int 0) (of_int 0) tmp_alpha 3 compute_cost compute_gradient)
         ZeroDivisionError
  /\ returns (gradient_descent (F:=PrimFloat.float) x_train y_train
                (of_int 0) (of_int 0) tmp_alpha (-1)
                compute_cost compute_gradient)
             (of_int 0, of_int 0, [], []).
Proof.
  destruct (@precondition_violations PrimFloat.float binary64)
    as (_ & _ & Hempty & Hneg & _).
  split.
  - apply Hempty. lia.
  - apply Hneg. lia.
Defined.

(** ** The optimum of the training set *)

(** C7.  On the training set [x = [1.0, 2.0]], [y = [300.0, 500.0]], at
    [m = 200], [b = 100]: in binary64 both residuals [m*x_i + b - y_i] are
    exactly zero and [compute_gradient] returns exactly [(0, 0)], hence
    within every tolerance; and so it does in exact arithmetic. *)
Theorem gradient_zero_at_optimum :
  (forall out,
      compute_gradient (F:=PrimFloat.float) x_train y_train
                       (of_int 200) (of_int 100) out
      = (Ok (of_int 0, of_int 0), out))
  /\ residual (F:=PrimFloat.float) x_train y_train (of_int 200) (of_int 100) 0
     = of_int 0
  /\ residual (F:=PrimFloat.float) x_train y_train (of_int 200) (of_int 100) 1
     = of_int 0
  /\ (forall out,
        compute_gradient (F:=R) x_train y_train 200%R 100%R out
        = (Ok (0%R, 0%R), out)).
Proof.
  split; [intros out; vm_compute; reflexivity|].
  split; [vm_compute; reflexivity|].
  split; [vm_compute; reflexivity|].
  intros out. rewrite compute_gradient_train.
  unfold gradient_value, slope_sum, intercept_sum, residual, elt,
    x_train, y_train.
  simpl. do 3 f_equal; field.
Qed.

(** ** Convergence on the training set, in exact arithmetic *)

Section Convergence.

Local Open Scope R_scope.



Lemma square_nonneg (a : R) : 0 <= a * a.
Proof. apply Rle_0_sqr. Qed.







End Convergence.





(** * Further properties of the code *)

(** ** Sums of real terms *)

Section RealSums.

Local Open Scope R_scope.

Lemma big_sum_succ (f : nat -> R) (n : nat) :
  big_sum f (S n) = big_sum f n + f n.
Proof. reflexivity. Qed.

Lemma big_sum_ext {F : Type} {SF : Scalar F} (f g : nat -> F) (n : nat) :
  (forall i, (i < n)%nat -> f i = g i) -> big_sum f n = big_sum g n.
Proof.
  induction n as [|n IH]; intros H.
  - reflexivity.
  - simpl. rewrite IH by (intros i Hi; apply H; lia).
    rewrite (H n) by lia. reflexivity.
Qed.

Lemma big_sum_add (f g : nat -> R) (n : nat) :
  big_sum (fun i => f i + g i) n = big_sum f n + big_sum g n.
Proof.
  induction n as [|n IH].
  - simpl. lra.
  - rewrite !big_sum_succ, IH. lra.
Qed.

Lemma big_sum_scale (c : R) (f : nat -> R) (n : nat) :
  big_sum (fun i => c * f i) n = c * big_sum f n.
Proof.
  induction n as [|n IH].
  - simpl. lra.
  - rewrite !big_sum_succ, IH. lra.
Qed.

Lemma big_sum_const (c : R) (n : nat) :
  big_sum (fun _ => c) n = INR n * c.
Proof.
  induction n as [|n IH].
  - simpl. lra.
  - rewrite big_sum_succ, IH, S_INR. lra.
Qed.

Lemma big_sum_nonneg (f : nat -> R) (n : nat) :
  (forall i, (i < n)%nat -> 0 <= f i) -> 0 <= big_sum f n.
Proof.
  induction n as [|n IH]; intros H.
  - simpl. lra.
  - rewrite big_sum_succ.
    specialize (IH ltac:(intros i Hi; apply H; lia)).
    specialize (H n ltac:(lia)). lra.
Qed.

Lemma of_int_double_length (n : nat) :
  IZR (2 * Z.of_nat n) = 2 * INR n.
Proof. rewrite mult_IZR, <- INR_IZR_INZ. reflexivity. Qed.

Lemma INR_length_pos {A} (x : list A) : x <> [] -> 0 < INR (length x).
Proof.
  intros Hx. destruct x; [contradiction|]. apply lt_0_INR. simpl. lia.
Qed.

End RealSums.

(** ** The cost as a function of the parameters, in exact arithmetic *)

Section RealCost.

Local Open Scope R_scope.

Variables (x y : list R).

Lemma residual_shift (m b h k : R) (i : nat) :
  residual x y (m + h) (b + k) i = residual x y m b i + (h * elt x i + k).
Proof. unfold residual. simpl. ring. Qed.

Lemma cost_formula_real (m b : R) :
  cost_formula x y m b
  = / (2 * INR (length x))
    * big_sum (fun i => residual x y m b i * residual x y m b i) (length x).
Proof.
  unfold cost_formula. cbv zeta.
  change (@of_int R real_scalar) with IZR.
  change (@divide R real_scalar) with Rdiv.
  change (@times R real_scalar) with Rmult.
  change (@square R real_scalar) with (fun r : R => r * r).
  rewrite of_int_double_length. unfold Rdiv. rewrite Rmult_1_l. reflexivity.
Qed.

Lemma gradient_value_real (m b : R) :
  gradient_value x y m b
  = (/ INR (length x) * slope_sum x y m b,
     / INR (length x) * intercept_sum x y m b).
Proof.
  unfold gradient_value. cbv zeta.
  change (@of_int R real_scalar) with IZR.
  change (@divide R real_scalar) with Rdiv.
  rewrite <- INR_IZR_INZ. unfold Rdiv. f_equal; apply Rmult_comm.
Qed.

(** The cost is a quadratic function of the parameters: its exact expansion
    around [(m, b)]. *)
Lemma cost_expansion (m b h k : R) :
  x <> [] ->
  cost_formula x y (m + h) (b + k)
  = cost_formula x y m b
    + h * fst (gradient_value x y m b)
    + k * snd (gradient_value x y m b)
    + / (2 * INR (length x))
      * big_sum (fun i => (h * elt x i + k) * (h * elt x i + k)) (length x).
Proof.
  intros Hx. pose proof (INR_length_pos Hx) as Hn.
  rewrite !cost_formula_real, gradient_value_real.
  unfold slope_sum, intercept_sum. cbn [fst snd].
  rewrite (big_sum_ext
             (fun i => residual x y (m + h) (b + k) i
                       * residual x y (m + h) (b + k) i)
             (fun i => residual x y m b i * residual x y m b i
                       + (2 * h * (residual x y m b i * elt x i)
                          + (2 * k * residual x y m b i
                             + (h * elt x i + k) * (h * elt x i + k))))).
  2:{ intros i _. rewrite residual_shift. ring. }
  rewrite !big_sum_add, !big_sum_scale.
  change (@times R real_scalar) with Rmult.
  change (big_sum (fun i => residual x y m b i) (length x))
    with (big_sum (residual x y m b) (length x)).
  generalize (big_sum (fun i => residual x y m b i * residual x y m b i)
                      (length x)).
  generalize (big_sum (fun i => residual x y m b i * elt x i) (length x)).
  generalize (big_sum (residual x y m b) (length x)).
  generalize (big_sum (fun i => (h * elt x i + k) * (h * elt x i + k))
                      (length x)).
  intros D C B A. field. lra.
Qed.

End RealCost.

(** A function with an exact second-order expansion at [a] has the
    coefficient of the first order as derivative there. *)
Lemma quadratic_derivative (f : R -> R) (a l A : R) :
  (0 <= A)%R ->
  (forall h, f (a + h) = f a + h * l + A * (h * h))%R ->
  derivable_pt_lim f a l.
Proof.
  intros HA Hf eps Heps.
  assert (Hd : (0 < eps / (A + 1))%R) by (apply Rdiv_lt_0_compat; lra).
  exists (mkposreal _ Hd). simpl. intros h Hh Hlt.
  rewrite Hf.
  replace ((f a + h * l + A * (h * h) - f a) / h - l)%R with (A * h)%R
    by (field; exact Hh).
  rewrite Rabs_mult, (Rabs_right A) by lra.
  assert (Hb : (Rabs h * (A + 1) < eps)%R).
  { apply (Rmult_lt_compat_r (A + 1)) in Hlt; [|lra].
    unfold Rdiv in Hlt. rewrite Rmult_assoc, Rinv_l, Rmult_1_r in Hlt by lra.
    exact Hlt. }
  pose proof (Rabs_pos h) as Hp.
  assert (Hle : (A * Rabs h <= Rabs h * (A + 1))%R).
  { rewrite (Rmult_comm A). apply Rmult_le_compat_l; lra. }
  lra.
Qed.

(** X1.  [compute_gradient] returns the gradient of the cost that
    [compute_cost] computes (exact arithmetic): on a non-empty data set of
    equal lengths, the two components it returns at [(m, b)] are the partial
    derivatives at [(m, b)], in [m] and in [b], of the function of the
    parameters that [compute_cost] evaluates. *)
Theorem compute_gradient_is_gradient (x y : list R) (m b : R) :
  x <> [] ->
  length x = length y ->
  exists (J : R -> R -> R) (dj_dm dj_db : R),
    (forall t u, returns (compute_cost x y t u) (J t u))
    /\ returns (compute_gradient x y m b) (dj_dm, dj_db)
    /\ derivable_pt_lim (fun t => J t b) m dj_dm
    /\ derivable_pt_lim (fun u => J m u) b dj_db.
Proof.
  intros Hx Hlen. pose proof (INR_length_pos Hx) as Hn.
  exists (cost_formula x y), (fst (gradient_value x y m b)),
    (snd (gradient_value x y m b)).
  split; [intros t u; apply compute_cost_returns; [exact Hx|lia]|].
  split.
  { rewrite <- surjective_pairing.
    apply compute_gradient_returns; [exact Hx|lia]. }
  split.
  - apply quadratic_derivative
      with (A := (/ (2 * INR (length x))
                  * big_sum (fun i => elt x i * elt x i) (length x))%R).
    + apply Rmult_le_pos.
      * apply Rlt_le, Rinv_0_lt_compat. lra.
      * apply big_sum_nonneg. intros i _. apply square_nonneg.
    + intros h.
      replace b with (b + 0)%R at 1 by ring.
      rewrite (cost_expansion y m b h 0 Hx).
      rewrite (big_sum_ext
                 (fun i => ((h * elt x i + 0) * (h * elt x i + 0))%R)
                 (fun i => (h * h * (elt x i * elt x i))%R))
        by (intros i _; ring).
      rewrite big_sum_scale. ring.
  - apply quadratic_derivative with (A := (/ 2)%R); [lra|].
    intros k.
    replace m with (m + 0)%R at 1 by ring.
    rewrite (cost_expansion y m b 0 k Hx).
    rewrite (big_sum_ext
               (fun i => ((0 * elt x i + k) * (0 * elt x i + k))%R)
               (fun _ => (k * k)%R))
      by (intros i _; ring).
    rewrite big_sum_const. field. lra.
Qed.

Lemma compute_gradient_is_gradient_witness :
  exists (J : R -> R -> R) (dj_dm dj_db : R),
    (forall t u, returns (compute_cost x_train y_train t u) (J t u))
    /\ returns (compute_gradient x_train y_train 0%R 0%R) (dj_dm, dj_db)
    /\ derivable_pt_lim (fun t => J t 0%R) 0%R dj_dm
    /\ derivable_pt_lim (fun u => J 0%R u) 0%R dj_db.
Proof.
  apply (@compute_gradient_is_gradient x_train y_train 0%R 0%R).
  - discriminate.
  - reflexivity.
Defined.

(** ** Fixed points of the update *)

(** A pair that one update leaves as it is stays the same after any number
    of updates. *)
Lemma params_after_fixed {F : Type} {SF : Scalar F}
    (grad : F -> F -> F * F) (alpha m b : F) (k : nat) :
  gd_step grad alpha (m, b) = (m, b) ->
  params_after grad alpha m b k = (m, b).
Proof.
  intros Hfix. induction k as [|k IH].
  - reflexivity.
  - unfold params_after in *. rewrite Nat.iter_succ, IH. exact Hfix.
Qed.

(** X5.  A pair that one update leaves unchanged is a fixed point of the
    whole run: when the callables are functions of the parameters and, with
    the gradient [(dj_dm, dj_db)] at the initial pair,
    [m_in - alpha * dj_dm] is [m_in] and [b_in - alpha * dj_db] is [b_in]
    (in binary64: a zero gradient and a finite learning rate), then for
    every iteration count [gradient_descent] returns the initial pair, every
    entry of the parameter history is the initial pair and every entry of
    the cost history is its cost.  The statement holds for every scalar
    arithmetic. *)
Theorem gradient_descent_fixed_point {F : Type} {SF : Scalar F}
    (x y : list F) (alpha : F) (num_iters : Z)
    (cost_function : cost_callable) (gradient_function : gradient_callable)
    (m_in b_in : F) (cost : F -> F -> F) (grad : F -> F -> F * F)
    (dj_dm dj_db : F) :
  (forall m b, returns (cost_function x y m b) (cost m b)) ->
  (forall m b, returns (gradient_function x y m b) (grad m b)) ->
  grad m_in b_in = (dj_dm, dj_db) ->
  minus m_in (times alpha dj_dm) = m_in ->
  minus b_in (times alpha dj_db) = b_in ->
  forall out, exists J P out',
    gradient_descent x y m_in b_in alpha num_iters
                     cost_function gradient_function out
    = (Ok (m_in, b_in, J, P), out')
    /\ (forall p, In p P -> p = (m_in, b_in))
    /\ (forall c, In c J -> c = cost m_in b_in).
Proof.
  intros Hc Hg Hgrad Hm Hb out.
  assert (Hfix : gd_step grad alpha (m_in, b_in) = (m_in, b_in)).
  { unfold gd_step. rewrite Hgrad, Hm, Hb. reflexivity. }
  destruct (@gradient_descent_run F SF x y alpha num_iters cost_function
              gradient_function m_in b_in cost grad Hc Hg out)
    as [out' Hrun].
  rewrite (@params_after_fixed F SF grad alpha m_in b_in
             (Z.to_nat num_iters) Hfix) in Hrun.
  eexists. eexists. exists out'. split; [exact Hrun|]. split.
  - intros p Hp. unfold params_upto in Hp. apply in_map_iff in Hp.
    destruct Hp as [k [<- _]]. apply params_after_fixed, Hfix.
  - intros c Hin. unfold costs_upto, params_upto in Hin.
    rewrite map_map in Hin. apply in_map_iff in Hin.
    destruct Hin as [k [<- _]].
    rewrite (@params_after_fixed F SF grad alpha m_in b_in k Hfix).
    reflexivity.
Qed.

Lemma gradient_descent_fixed_point_witness :
  exists J P out',
    gradient_descent (F:=PrimFloat.float) x_train y_train
                     (of_int 200) (of_int 100) tmp_alpha 3
                     compute_cost compute_gradient []
    = (Ok (of_int 200, of_int 100, J, P), out')
    /\ (forall p, In p P -> p = (of_int 200, of_int 100))
    /\ (forall c, In c J ->
          c = cost_formula x_train y_train (of_int 200) (of_int 100)).
Proof.
  apply (@gradient_descent_fixed_point PrimFloat.float binary64
           x_train y_train tmp_alpha 3 compute_cost compute_gradient
           (of_int 200) (of_int 100)
           (cost_formula x_train y_train) (gradient_value x_train y_train)
           (of_int 0) (of_int 0)
           compute_cost_train compute_gradient_train).
  - vm_compute. reflexivity.
  - vm_compute. reflexivity.
  - vm_compute. reflexivity.
Defined.

(** ** What [gradient_descent] prints *)

Section Reports.

Context {F : Type} {SF : Scalar F}.
Local Open Scope scalar_scope.

Variables (x y : list F) (alpha : F) (num_iters : Z).
Variables (cost_function : @cost_callable F)
          (gradient_function : @gradient_callable F).
Variables (m_in b_in : F).
Variables (cost : F -> F -> F) (grad : F -> F -> F * F).
Hypothesis cost_function_returns :
  forall m b, returns (cost_function x y m b) (cost m b).
Hypothesis gradient_function_returns :
  forall m b, returns (gradient_function x y m b) (grad m b).

(** One iteration, with what it prints. *)
Lemma gd_body_output i m b J P dj_dm dj_db v out :
  (0 <= i < num_iters)%Z ->
  grad m b = (dj_dm, dj_db) ->
  returns (F:=F)
    (last_entry (if (i <? 100000)%Z
                 then J ++ [cost (m - alpha * dj_dm) (b - alpha * dj_db)]
                 else J)) v ->
  gd_body x y alpha num_iters cost_function gradient_function i (m, b, J, P) out
  = (Ok (m - alpha * dj_dm, b - alpha * dj_db,
         (if (i <? 100000)%Z
          then J ++ [cost (m - alpha * dj_dm) (b - alpha * dj_db)] else J),
         (if (i <? 100000)%Z
          then P ++ [(m - alpha * dj_dm, b - alpha * dj_db)] else P)),
     out ++ (if (i mod print_interval num_iters =? 0)%Z
             then [Line i v dj_dm dj_db
                        (m - alpha * dj_dm) (b - alpha * dj_db)]
             else [])).
Proof.
  intros Hi Hg Hv.
  assert (HK : (print_interval num_iters =? 0)%Z = false).
  { apply Z.eqb_neq. pose proof (@print_interval_pos num_iters). lia. }
  unfold gd_body, bind.
  rewrite gradient_function_returns, Hg.
  destruct (i <? 100000)%Z.
  - rewrite cost_function_returns. unfold is_multiple. rewrite HK. unfold ret.
    destruct (i mod print_interval num_iters =? 0)%Z; cbv beta iota.
    + rewrite Hv. reflexivity.
    + rewrite app_nil_r. reflexivity.
  - unfold is_multiple. rewrite HK. unfold ret.
    destruct (i mod print_interval num_iters =? 0)%Z; cbv beta iota.
    + rewrite Hv. reflexivity.
    + rewrite app_nil_r. reflexivity.
Qed.

Lemma reports_succ (k : nat) :
  reports cost grad alpha m_in b_in num_iters (S k)
  = reports cost grad alpha m_in b_in num_iters k
    ++ (if (Z.of_nat k mod print_interval num_iters =? 0)%Z
        then [report_line cost grad alpha m_in b_in k]
        else []).
Proof.
  unfold reports. rewrite seq_S, flat_map_app. simpl.
  rewrite app_nil_r. reflexivity.
Qed.

(** The last cost recorded after [k + 1] iterations. *)
Lemma last_recorded_cost (k : nat) :
  returns (F:=F)
    (last_entry (costs_upto cost grad alpha m_in b_in
                            (recorded (Z.of_nat (S k)))))
    (cost (fst (params_after grad alpha m_in b_in (recorded (Z.of_nat (S k)))))
          (snd (params_after grad alpha m_in b_in (recorded (Z.of_nat (S k)))))).
Proof.
  assert (H : exists j, recorded (Z.of_nat (S k)) = S j).
  { exists (pred (recorded (Z.of_nat (S k)))). unfold recorded. lia. }
  destruct H as [j ->].
  rewrite costs_upto_succ. apply last_entry_snoc.
Qed.

(** The state and the output after the first [k] iterations. *)
Lemma gd_prefix_output (k : nat) :
  (Z.of_nat k <= num_iters)%Z ->
  forall out,
    gd_prefix x y alpha num_iters cost_function gradient_function m_in b_in
              (Z.of_nat k) out
    = (Ok (params_after grad alpha m_in b_in k,
           costs_upto cost grad alpha m_in b_in (recorded (Z.of_nat k)),
           params_upto grad alpha m_in b_in (recorded (Z.of_nat k))),
       out ++ reports cost grad alpha m_in b_in num_iters k).
Proof.
  induction k as [|k IH]; intros Hk out.
  - unfold reports. simpl. rewrite app_nil_r. reflexivity.
  - rewrite gd_prefix_succ_nat. unfold bind at 1.
    rewrite (IH ltac:(lia) out).
    pose proof (last_recorded_cost k) as Hlast.
    rewrite reports_succ, app_assoc. unfold report_line.
    destruct (params_after grad alpha m_in b_in k) as [m b] eqn:Ep.
    cbn [fst snd].
    destruct (grad m b) as [dj_dm dj_db] eqn:Eg. cbn [fst snd].
    assert (Ep' : params_after grad alpha m_in b_in (S k)
                  = (m - alpha * dj_dm, b - alpha * dj_db)).
    { unfold params_after in *. rewrite Nat.iter_succ, Ep.
      unfold gd_step. rewrite Eg. reflexivity. }
    rewrite Ep'. cbn [fst snd].
    destruct (Z.ltb_spec (Z.of_nat k) 100000) as [Hlt|Hge].
    + destruct (@recorded_succ_below k Hlt) as [R1 R2].
      rewrite R2 in Hlast |- *. rewrite R1.
      rewrite costs_upto_succ, params_upto_succ, Ep' in *. cbn [fst snd] in *.
      rewrite (@gd_body_output (Z.of_nat k) m b
                 (costs_upto cost grad alpha m_in b_in k)
                 (params_upto grad alpha m_in b_in k)
                 dj_dm dj_db
                 (cost (m - alpha * dj_dm) (b - alpha * dj_db))
                 _ ltac:(lia) Eg).
      * destruct (Z.ltb_spec (Z.of_nat k) 100000); [|lia]. reflexivity.
      * destruct (Z.ltb_spec (Z.of_nat k) 100000); [|lia]. exact Hlast.
    + destruct (@recorded_succ_above k Hge) as [R1 R2].
      rewrite R1 in Hlast |- *.
      rewrite (@gd_body_output (Z.of_nat k) m b
                 (costs_upto cost grad alpha m_in b_in (recorded (Z.of_nat k)))
                 (params_upto grad alpha m_in b_in (recorded (Z.of_nat k)))
                 dj_dm dj_db
                 (cost (fst (params_after grad alpha m_in b_in
                                          (recorded (Z.of_nat k))))
                       (snd (params_after grad alpha m_in b_in
                                          (recorded (Z.of_nat k)))))
                 _ ltac:(lia) Eg).
      * destruct (Z.ltb_spec (Z.of_nat k) 100000); [lia|]. reflexivity.
      * destruct (Z.ltb_spec (Z.of_nat k) 100000); [lia|]. exact Hlast.
Qed.

End Reports.

(** Among the indices below [k <= 10 * K], at most ten are multiples of
    [K]. *)
Lemma multiples_count (K : Z) (k : nat) :
  (0 < K)%Z -> (Z.of_nat k <= 10 * K)%Z ->
  (length (filter (fun i => (Z.of_nat i mod K =? 0)%Z) (seq 0 k)) <= 10)%nat.
Proof.
  intros HK Hk.
  set (l := filter (fun i => (Z.of_nat i mod K =? 0)%Z) (seq 0 k)).
  set (q := fun i : nat => Z.to_nat (Z.of_nat i / K)).
  assert (Hin : forall i, In i l ->
                  (Z.of_nat i < Z.of_nat k)%Z /\ (Z.of_nat i mod K = 0)%Z).
  { intros i Hi. apply filter_In in Hi. destruct Hi as [Hi Hm].
    apply in_seq in Hi. apply Z.eqb_eq in Hm. split; [lia|exact Hm]. }
  rewrite <- (length_map q l), <- (length_seq 10 0).
  apply NoDup_incl_length.
  - apply NoDup_map_NoDup_ForallPairs.
    + intros i j Hi Hj Hq.
      destruct (Hin i Hi) as [_ Hmi]. destruct (Hin j Hj) as [_ Hmj].
      pose proof (Z.div_mod (Z.of_nat i) K ltac:(lia)) as Di.
      pose proof (Z.div_mod (Z.of_nat j) K ltac:(lia)) as Dj.
      assert (Hqz : (Z.of_nat i / K = Z.of_nat j / K)%Z).
      { unfold q in Hq.
        pose proof (Z.div_pos (Z.of_nat i) K ltac:(lia) HK).
        pose proof (Z.div_pos (Z.of_nat j) K ltac:(lia) HK). lia. }
      rewrite Hmi in Di. rewrite Hmj, <- Hqz in Dj. lia.
    + apply NoDup_filter, seq_NoDup.
  - intros n Hn. apply in_map_iff in Hn. destruct Hn as [i [<- Hi]].
    destruct (Hin i Hi) as [Hlt _]. apply in_seq. unfold q.
    pose proof (Z.div_pos (Z.of_nat i) K ltac:(lia) HK).
    assert (Z.of_nat i / K < 10)%Z
      by (apply Z.div_lt_upper_bound; lia).
    lia.
Qed.

Lemma print_interval_covers (n : Z) : (n <= 10 * print_interval n)%Z.
Proof.
  unfold print_interval.
  pose proof (Z.div_mod (n + 9) 10 ltac:(lia)) as D.
  pose proof (Z.mod_pos_bound (n + 9) 10 ltac:(lia)) as B. lia.
Qed.

Lemma reports_length {F : Type} {SF : Scalar F}
    (cost : F -> F -> F) (grad : F -> F -> F * F) (alpha m_in b_in : F)
    (num_iters : Z) (k : nat) :
  length (reports cost grad alpha m_in b_in num_iters k)
  = length (filter (fun i => (Z.of_nat i mod print_interval num_iters =? 0)%Z)
                   (seq 0 k)).
Proof.
  unfold reports. generalize (seq 0 k) as l.
  induction l as [|i l IH]; simpl.
  - reflexivity.
  - destruct (Z.of_nat i mod print_interval num_iters =? 0)%Z; simpl;
      rewrite IH; reflexivity.
Qed.

(** The whole run, with its output. *)
Lemma gradient_descent_output {F : Type} {SF : Scalar F}
    (x y : list F) (alpha : F) (num_iters : Z)
    (cost_function : cost_callable) (gradient_function : gradient_callable)
    (m_in b_in : F) (cost : F -> F -> F) (grad : F -> F -> F * F) :
  (forall m b, returns (cost_function x y m b) (cost m b)) ->
  (forall m b, returns (gradient_function x y m b) (grad m b)) ->
  forall out,
    gradient_descent x y m_in b_in alpha num_iters
                     cost_function gradient_function out
    = (Ok (params_after grad alpha m_in b_in (Z.to_nat num_iters),
           costs_upto cost grad alpha m_in b_in (recorded num_iters),
           params_upto grad alpha m_in b_in (recorded num_iters)),
       out ++ reports cost grad alpha m_in b_in num_iters (Z.to_nat num_iters)).
Proof.
  intros Hc Hg out. rewrite gradient_descent_prefix.
  destruct (Z.le_gt_cases 0 num_iters) as [Hn|Hn].
  - pose proof (@gd_prefix_output F SF x y alpha num_iters cost_function
                  gradient_function m_in b_in cost grad Hc Hg
                  (Z.to_nat num_iters) ltac:(lia) out) as H.
    rewrite Z2Nat.id in H by exact Hn. exact H.
  - unfold gd_prefix. rewrite range_nonpos by lia.
    replace (Z.to_nat num_iters) with O by lia.
    replace (recorded num_iters) with O by (unfold recorded; lia).
    unfold reports. simpl. rewrite app_nil_r. reflexivity.
Qed.

(** X7.  What [gradient_descent] prints, for an iteration count below
    [2^53] (where [math.ceil(num_iters/10)] is the integer the model takes)
    and callables that are functions of the parameters: it appends lines to
    the output, one for each
    iteration index [i < num_iters] that is a multiple of
    [ceil(num_iters / 10)], in increasing order of [i].  The line of
    iteration [i] shows [i], the gradient at the pair before the update, the
    pair after the update, and as cost the last recorded one: the cost of the
    pair after [min(i + 1, 100000)] updates, which from [i = 100000] on is no
    longer the cost of the pair printed beside it. *)
Theorem gradient_descent_report {F : Type} {SF : Scalar F}
    (x y : list F) (alpha : F) (num_iters : Z)
    (cost_function : cost_callable) (gradient_function : gradient_callable)
    (m_in b_in : F) (cost : F -> F -> F) (grad : F -> F -> F * F) :
  (num_iters < 2 ^ 53)%Z ->
  (forall m b, returns (cost_function x y m b) (cost m b)) ->
  (forall m b, returns (gradient_function x y m b) (grad m b)) ->
  forall out, exists st lines,
    gradient_descent x y m_in b_in alpha num_iters
                     cost_function gradient_function out
    = (Ok st, out ++ lines)
    /\ map (@p_iter F) lines
       = map Z.of_nat
             (filter (fun i => (Z.of_nat i mod print_interval num_iters =? 0)%Z)
                     (seq 0 (Z.to_nat num_iters)))
    /\ forall l, In l lines ->
         exists i : nat,
           p_iter l = Z.of_nat i
           /\ (Z.of_nat i < num_iters)%Z
           /\ (p_dj_dm l, p_dj_db l)
              = grad (fst (params_after grad alpha m_in b_in i))
                     (snd (params_after grad alpha m_in b_in i))
           /\ (p_m l, p_b l) = params_after grad alpha m_in b_in (S i)
           /\ p_cost l
              = cost (fst (params_after grad alpha m_in b_in
                             (Z.to_nat (Z.min (Z.of_nat i + 1) 100000))))
                     (snd (params_after grad alpha m_in b_in
                             (Z.to_nat (Z.min (Z.of_nat i + 1) 100000)))).
Proof.
  intros Hbound Hc Hg out. eexists. eexists.
  split; [apply gradient_descent_output; eassumption|].
  split.
  - unfold reports. generalize (seq 0 (Z.to_nat num_iters)) as l.
    induction l as [|i l IH]; simpl.
    + reflexivity.
    + destruct (Z.of_nat i mod print_interval num_iters =? 0)%Z; simpl;
        rewrite IH; reflexivity.
  - intros l Hl. unfold reports in Hl. apply in_flat_map in Hl.
    destruct Hl as [i [Hi Hl]]. apply in_seq in Hi.
    destruct (Z.of_nat i mod print_interval num_iters =? 0)%Z;
      [|contradiction].
    destruct Hl as [<-|[]]. exists i. unfold report_line. cbn [p_iter p_cost
      p_dj_dm p_dj_db p_m p_b].
    split; [reflexivity|]. split; [lia|].
    split; [symmetry; apply surjective_pairing|].
    split; [symmetry; apply surjective_pairing|].
    unfold recorded. replace (Z.of_nat (S i)) with (Z.of_nat i + 1)%Z by lia.
    reflexivity.
Qed.

Lemma gradient_descent_report_witness :
  exists st lines,
    gradient_descent (F:=PrimFloat.float) x_train y_train
                     (of_int 0) (of_int 0) tmp_alpha 25
                     compute_cost compute_gradient []
    = (Ok st, [] ++ lines)
    /\ map (@p_iter PrimFloat.float) lines
       = map Z.of_nat
             (filter (fun i => (Z.of_nat i mod print_interval 25 =? 0)%Z)
                     (seq 0 (Z.to_nat 25)))
    /\ forall l, In l lines ->
         exists i : nat,
           p_iter l = Z.of_nat i
           /\ (Z.of_nat i < 25)%Z
           /\ (p_dj_dm l, p_dj_db l)
              = gradient_value x_train y_train
                  (fst (params_after (gradient_value x_train y_train)
                                     tmp_alpha (of_int 0) (of_int 0) i))
                  (snd (params_after (gradient_value x_train y_train)
                                     tmp_alpha (of_int 0) (of_int 0) i))
           /\ (p_m l, p_b l)
              = params_after (gradient_value x_train y_train)
                             tmp_alpha (of_int 0) (of_int 0) (S i)
           /\ p_cost l
              = cost_formula x_train y_train
                  (fst (params_after (gradient_value x_train y_train)
                          tmp_alpha (of_int 0) (of_int 0)
                          (Z.to_nat (Z.min (Z.of_nat i + 1) 100000))))
                  (snd (params_after (gradient_value x_train y_train)
                          tmp_alpha (of_int 0) (of_int 0)
                          (Z.to_nat (Z.min (Z.of_nat i + 1) 100000)))).
Proof.
  assert (Hbound : (25 < 2 ^ 53)%Z) by reflexivity.
  exact (@gradient_descent_report PrimFloat.float binary64
           x_train y_train tmp_alpha 25 compute_cost compute_gradient
           (of_int 0) (of_int 0)
           (cost_formula x_train y_train) (gradient_value x_train y_train)
           Hbound compute_cost_train compute_gradient_train []).
Defined.

(** X8.  For every iteration count below [2^53], [gradient_descent] prints
    at most ten lines, and when it runs at least one iteration the first
    line is that of iteration [0] (callables that are functions of the
    parameters). *)
Theorem gradient_descent_prints_at_most_ten {F : Type} {SF : Scalar F}
    (x y : list F) (alpha : F) (num_iters : Z)
    (cost_function : cost_callable) (gradient_function : gradient_callable)
    (m_in b_in : F) (cost : F -> F -> F) (grad : F -> F -> F * F) :
  (num_iters < 2 ^ 53)%Z ->
  (forall m b, returns (cost_function x y m b) (cost m b)) ->
  (forall m b, returns (gradient_function x y m b) (grad m b)) ->
  forall out, exists st lines,
    gradient_descent x y m_in b_in alpha num_iters
                     cost_function gradient_function out
    = (Ok st, out ++ lines)
    /\ (length lines <= 10)%nat
    /\ ((1 <= num_iters)%Z ->
        exists l rest, lines = l :: rest /\ p_iter l = 0%Z).
Proof.
  intros Hbound Hc Hg out. eexists. eexists.
  split; [apply gradient_descent_output; eassumption|].
  split.
  - rewrite reports_length.
    destruct (Z.le_gt_cases num_iters 0) as [Hn|Hn].
    + replace (Z.to_nat num_iters) with O by lia. simpl. lia.
    + apply multiples_count.
      * apply print_interval_pos. lia.
      * pose proof (print_interval_covers num_iters). lia.
  - intros Hn. destruct (Z.to_nat num_iters) as [|k] eqn:E; [lia|].
    unfold reports. rewrite <- cons_seq. simpl flat_map.
    change (Z.of_nat 0 mod print_interval num_iters)%Z with 0%Z.
    simpl. eexists. eexists. split; reflexivity.
Qed.

Lemma gradient_descent_prints_at_most_ten_witness :
  exists st lines,
    gradient_descent (F:=PrimFloat.float) x_train y_train
                     (of_int 0) (of_int 0) tmp_alpha 25
                     compute_cost compute_gradient []
    = (Ok st, [] ++ lines)
    /\ (length lines <= 10)%nat
    /\ ((1 <= 25)%Z -> exists l rest, lines = l :: rest /\ p_iter l = 0%Z).
Proof.
  assert (Hbound : (25 < 2 ^ 53)%Z) by reflexivity.
  exact (@gradient_descent_prints_at_most_ten PrimFloat.float binary64
           x_train y_train tmp_alpha 25 compute_cost compute_gradient
           (of_int 0) (of_int 0)
           (cost_formula x_train y_train) (gradient_value x_train y_train)
           Hbound compute_cost_train compute_gradient_train []).
Defined.

(** ** Targets shorter or longer than the features *)

Lemma compute_gradient_short_y {F : Type} {SF : Scalar F}
    (x y : list F) (m b : F) :
  (length y < length x)%nat -> raises (compute_gradient x y m b) IndexError.
Proof.
  intros Hlen. unfold compute_gradient. apply raises_bind.
  rewrite range_shape0.
  replace (length x) with (S (length y) + (length x - S (length y)))%nat by lia.
  rewrite range_add. apply for_each_app_raises. rewrite range_succ.
  eapply for_each_snoc_raises; [apply gradient_loop_returns; lia|].
  unfold gradient_body.
  eapply returns_then_raises; [apply index_inside; lia|].
  apply raises_bind, index_outside. lia.
Qed.

(** X9.  When [y] has fewer elements than [x], [compute_cost] and
    [compute_gradient] raise [IndexError] (the read of [y[i]] past the end)
    and print nothing, and so does [gradient_descent] with them as callables
    as soon as it runs one iteration. *)
Theorem short_targets_raise {F : Type} {SF : Scalar F}
    (x y : list F) (m b alpha : F) (num_iters : Z) :
  (length y < length x)%nat ->
  raises (compute_cost x y m b) IndexError
  /\ raises (compute_gradient x y m b) IndexError
  /\ ((1 <= num_iters)%Z ->
      raises (gradient_descent x y m b alpha num_iters
                               compute_cost compute_gradient)
             IndexError).
Proof.
  intros Hlen.
  split; [apply compute_cost_short_y, Hlen|].
  split; [apply compute_gradient_short_y, Hlen|].
  intros Hn. apply gradient_descent_raises; [exact Hn|].
  apply compute_gradient_short_y, Hlen.
Qed.

Lemma short_targets_raise_witness :
  raises (compute_cost (F:=PrimFloat.float) x_train [of_int 300]
                       (of_int 0) (of_int 0)) IndexError
  /\ raises (compute_gradient (F:=PrimFloat.float) x_train [of_int 300]
                              (of_int 0) (of_int 0)) IndexError
  /\ ((1 <= 3)%Z ->
      raises (gradient_descent (F:=PrimFloat.float) x_train [of_int 300]
                (of_int 0) (of_int 0) tmp_alpha 3
                compute_cost compute_gradient)
             IndexError).
Proof.
  apply (@short_targets_raise PrimFloat.float binary64 x_train [of_int 300]
           (of_int 0) (of_int 0) tmp_alpha 3).
  simpl. lia.
Defined.

Lemma elt_firstn {F : Type} {SF : Scalar F} (y : list F) (n i : nat) :
  (i < n)%nat -> elt (firstn n y) i = elt y i.
Proof.
  intros Hi. unfold elt. rewrite nth_firstn.
  destruct (Nat.ltb_spec i n) as [_|Hge]; [reflexivity|lia].
Qed.

(** X10.  When [y] has more elements than [x], the surplus is ignored:
    [compute_cost] and [compute_gradient] return what they return on [y] cut
    to the length of [x]. *)
Theorem surplus_targets_ignored {F : Type} {SF : Scalar F}
    (x y : list F) (m b : F) :
  x <> [] ->
  (length x <= length y)%nat ->
  exists c g,
    returns (compute_cost x y m b) c
    /\ returns (compute_cost x (firstn (length x) y) m b) c
    /\ returns (compute_gradient x y m b) g
    /\ returns (compute_gradient x (firstn (length x) y) m b) g.
Proof.
  intros Hx Hlen.
  assert (Hcut : (length x <= length (firstn (length x) y))%nat)
    by (rewrite length_firstn; lia).
  assert (Hres : forall i, (i < length x)%nat ->
                   residual x (firstn (length x) y) m b i = residual x y m b i).
  { intros i Hi. unfold residual. rewrite elt_firstn by exact Hi. reflexivity. }
  exists (cost_formula x y m b), (gradient_value x y m b).
  split; [apply compute_cost_returns; assumption|].
  split.
  { replace (cost_formula x y m b)
      with (cost_formula x (firstn (length x) y) m b).
    - apply compute_cost_returns; assumption.
    - unfold cost_formula. cbv zeta. f_equal.
      apply big_sum_ext. intros i Hi. rewrite Hres by exact Hi. reflexivity. }
  split; [apply compute_gradient_returns; assumption|].
  replace (gradient_value x y m b)
    with (gradient_value x (firstn (length x) y) m b).
  - apply compute_gradient_returns; assumption.
  - unfold gradient_value, slope_sum, intercept_sum. cbv zeta.
    f_equal; f_equal; apply big_sum_ext; intros i Hi;
      rewrite Hres by exact Hi; reflexivity.
Qed.

Lemma surplus_targets_ignored_witness :
  exists c g,
    returns (compute_cost (F:=PrimFloat.float) x_train
               [of_int 300; of_int 500; of_int 700] (of_int 0) (of_int 0)) c
    /\ returns (compute_cost x_train
                  (firstn (length (x_train (F:=PrimFloat.float)))
                          [of_int 300; of_int 500; of_int 700])
                  (of_int 0) (of_int 0)) c
    /\ returns (compute_gradient x_train
                  [of_int 300; of_int 500; of_int 700] (of_int 0) (of_int 0)) g
    /\ returns (compute_gradient x_train
                  (firstn (length (x_train (F:=PrimFloat.float)))
                          [of_int 300; of_int 500; of_int 700])
                  (of_int 0) (of_int 0)) g.
Proof.
  apply (@surplus_targets_ignored PrimFloat.float binary64 x_train
           [of_int 300; of_int 500; of_int 700] (of_int 0) (of_int 0)).
  - discriminate.
  - simpl. lia.
Defined.

(** ** Exceptions of the callables, and runs in two parts *)

Lemma range_prefix (k n : Z) :
  (0 <= k <= n)%Z -> exists rest, range n = range k ++ rest.
Proof.
  intros Hk.
  replace n with (Z.of_nat (Z.to_nat k + Z.to_nat (n - k))) by lia.
  rewrite range_add. replace (Z.of_nat (Z.to_nat k)) with k by lia.
  eexists. reflexivity.
Qed.

(** X11.  An exception of a callable ends the run: when the first [i]
    iterations have returned and the gradient function raises in iteration
    [i], or the cost function does (it is called only while [i < 100000]),
    [gradient_descent] raises that exception.  The histories built so far
    are not returned; what was printed stays printed. *)
Theorem gradient_descent_aborts {F : Type} {SF : Scalar F}
    (x y : list F) (alpha : F) (num_iters : Z)
    (cost_function : cost_callable) (gradient_function : gradient_callable)
    (m_in b_in : F) (i : Z) (m b : F) (J : list F) (P : list (F * F))
    (out0 out1 : stdout F) :
  (0 <= i < num_iters)%Z ->
  gd_prefix x y alpha num_iters cost_function gradient_function m_in b_in i out0
  = (Ok (m, b, J, P), out1) ->
  (forall e out2,
      gradient_function x y m b out1 = (Raise e, out2) ->
      gradient_descent x y m_in b_in alpha num_iters
                       cost_function gradient_function out0
      = (Raise e, out2))
  /\ (forall dj_dm dj_db out2 e out3,
        gradient_function x y m b out1 = (Ok (dj_dm, dj_db), out2) ->
        (i < 100000)%Z ->
        cost_function x y (minus m (times alpha dj_dm))
                      (minus b (times alpha dj_db)) out2
        = (Raise e, out3) ->
        gradient_descent x y m_in b_in alpha num_iters
                         cost_function gradient_function out0
        = (Raise e, out3)).
Proof.
  intros Hi Hrun.
  assert (Hsplit : forall r,
             gd_body x y alpha num_iters cost_function gradient_function
                     i (m, b, J, P) out1 = r ->
             (forall st o, r <> (Ok st, o)) ->
             gradient_descent x y m_in b_in alpha num_iters
                              cost_function gradient_function out0 = r).
  { intros r Hbody Hr. rewrite gradient_descent_prefix. unfold gd_prefix.
    destruct (@range_prefix (i + 1) num_iters ltac:(lia)) as [rest ->].
    rewrite for_each_app. unfold bind at 1.
    change (for_each (gd_body x y alpha num_iters cost_function
                              gradient_function)
                     (range (i + 1)) (m_in, b_in, [], []) out0)
      with (gd_prefix x y alpha num_iters cost_function gradient_function
                      m_in b_in (i + 1) out0).
    rewrite gd_prefix_succ by lia. unfold bind at 1. rewrite Hrun, Hbody.
    destruct r as [[st|e] o]; [exfalso; eapply Hr; reflexivity|reflexivity]. }
  split.
  - intros e out2 Hg. apply Hsplit; [|intros st o H; discriminate H].
    unfold gd_body, bind. rewrite Hg. reflexivity.
  - intros dj_dm dj_db out2 e out3 Hg Hlt Hc.
    apply Hsplit; [|intros st o H; discriminate H].
    unfold gd_body, bind. rewrite Hg.
    destruct (Z.ltb_spec i 100000) as [_|Hge]; [|lia].
    rewrite Hc. reflexivity.
Qed.

Lemma gradient_descent_aborts_witness :
  gradient_descent (F:=PrimFloat.float) x_train [of_int 300]
                   (of_int 0) (of_int 0) tmp_alpha 3
                   compute_cost compute_gradient []
  = (Raise IndexError, []).
Proof.
  apply (proj1 (@gradient_descent_aborts PrimFloat.float binary64
                  x_train [of_int 300] tmp_alpha 3
                  compute_cost compute_gradient
                  (of_int 0) (of_int 0) 0 (of_int 0) (of_int 0) [] [] [] []
                  ltac:(lia) eq_refl)).
  vm_compute. reflexivity.
Defined.

Section Restart.

Context {F : Type} {SF : Scalar F}.

Variables (grad : F -> F -> F * F) (alpha m_in b_in : F).

Lemma params_after_add (k1 k2 : nat) :
  params_after grad alpha m_in b_in (k1 + k2)
  = params_after grad alpha
      (fst (params_after grad alpha m_in b_in k1))
      (snd (params_after grad alpha m_in b_in k1)) k2.
Proof.
  unfold params_after. rewrite Nat.add_comm, Nat.iter_add.
  rewrite <- surjective_pairing. reflexivity.
Qed.

Lemma params_upto_shift (k1 k2 s : nat) :
  map (params_after grad alpha m_in b_in) (seq (k1 + s) k2)
  = map (params_after grad alpha
           (fst (params_after grad alpha m_in b_in k1))
           (snd (params_after grad alpha m_in b_in k1)))
        (seq s k2).
Proof.
  revert s. induction k2 as [|k2 IH]; intros s.
  - reflexivity.
  - simpl. rewrite params_after_add. f_equal.
    rewrite plus_n_Sm. apply IH.
Qed.

Lemma params_upto_add (k1 k2 : nat) :
  params_upto grad alpha m_in b_in (k1 + k2)
  = params_upto grad alpha m_in b_in k1
    ++ params_upto grad alpha
         (fst (params_after grad alpha m_in b_in k1))
         (snd (params_after grad alpha m_in b_in k1)) k2.
Proof.
  unfold params_upto. rewrite seq_app, map_app. f_equal.
  rewrite (Nat.add_comm 1 k1). apply params_upto_shift.
Qed.

End Restart.

(** X12.  A run can be cut in two: running [n1] iterations, then [n2] more
    from the pair the first run returned, returns the same pair as one run
    of [n1 + n2] iterations from the start; and while [n1 + n2 <= 100000]
    the histories of the long run are those of the two parts, one after the
    other (callables that are functions of the parameters). *)
Theorem gradient_descent_restart {F : Type} {SF : Scalar F}
    (x y : list F) (alpha : F) (n1 n2 : Z)
    (cost_function : cost_callable) (gradient_function : gradient_callable)
    (m_in b_in : F) (cost : F -> F -> F) (grad : F -> F -> F * F) :
  (forall m b, returns (cost_function x y m b) (cost m b)) ->
  (forall m b, returns (gradient_function x y m b) (grad m b)) ->
  (0 <= n1)%Z -> (0 <= n2)%Z ->
  forall outa outb outc,
  exists m1 b1 J1 P1 outa' m2 b2 J2 P2 outb' J P outc',
    gradient_descent x y m_in b_in alpha n1
                     cost_function gradient_function outa
    = (Ok (m1, b1, J1, P1), outa')
    /\ gradient_descent x y m1 b1 alpha n2
                        cost_function gradient_function outb
       = (Ok (m2, b2, J2, P2), outb')
    /\ gradient_descent x y m_in b_in alpha (n1 + n2)
                        cost_function gradient_function outc
       = (Ok (m2, b2, J, P), outc')
    /\ ((n1 + n2 <= 100000)%Z -> J = J1 ++ J2 /\ P = P1 ++ P2).
Proof.
  intros Hc Hg H1 H2 outa outb outc.
  destruct (@gradient_descent_run F SF x y alpha n1 cost_function
              gradient_function m_in b_in cost grad Hc Hg outa)
    as [outa' Ha].
  destruct (params_after grad alpha m_in b_in (Z.to_nat n1)) as [m1 b1] eqn:E1.
  destruct (@gradient_descent_run F SF x y alpha n2 cost_function
              gradient_function m1 b1 cost grad Hc Hg outb)
    as [outb' Hb].
  destruct (params_after grad alpha m1 b1 (Z.to_nat n2)) as [m2 b2] eqn:E2.
  destruct (@gradient_descent_run F SF x y alpha (n1 + n2) cost_function
              gradient_function m_in b_in cost grad Hc Hg outc)
    as [outc' Hcc].
  assert (E12 : params_after grad alpha m_in b_in (Z.to_nat (n1 + n2))
                = (m2, b2)).
  { rewrite Z2Nat.inj_add by lia. rewrite params_after_add, E1. exact E2. }
  rewrite E12 in Hcc.
  do 13 eexists. split; [exact Ha|]. split; [exact Hb|].
  split; [exact Hcc|].
  intros Hcap.
  assert (R1 : recorded n1 = Z.to_nat n1) by (unfold recorded; lia).
  assert (R2 : recorded n2 = Z.to_nat n2) by (unfold recorded; lia).
  assert (R12 : recorded (n1 + n2) = (Z.to_nat n1 + Z.to_nat n2)%nat)
    by (unfold recorded; lia).
  rewrite R1, R2, R12. unfold costs_upto.
  rewrite params_upto_add, E1, map_app. cbn [fst snd]. split; reflexivity.
Qed.

Lemma gradient_descent_restart_witness :
  exists m1 b1 J1 P1 outa' m2 b2 J2 P2 outb' J P outc',
    gradient_descent (F:=PrimFloat.float) x_train y_train
                     (of_int 0) (of_int 0) tmp_alpha 2
                     compute_cost compute_gradient []
    = (Ok (m1, b1, J1, P1), outa')
    /\ gradient_descent x_train y_train m1 b1 tmp_alpha 3
                        compute_cost compute_gradient []
       = (Ok (m2, b2, J2, P2), outb')
    /\ gradient_descent x_train y_train (of_int 0) (of_int 0) tmp_alpha (2 + 3)
                        compute_cost compute_gradient []
       = (Ok (m2, b2, J, P), outc')
    /\ ((2 + 3 <= 100000)%Z -> J = J1 ++ J2 /\ P = P1 ++ P2).
Proof.
  assert (H2 : (0 <= 2)%Z) by lia.
  assert (H3 : (0 <= 3)%Z) by lia.
  exact (@gradient_descent_restart PrimFloat.float binary64
           x_train y_train tmp_alpha 2 3 compute_cost compute_gradient
           (of_int 0) (of_int 0)
           (cost_formula x_train y_train) (gradient_value x_train y_train)
           compute_cost_train compute_gradient_train H2 H3 [] [] []).
Defined.
